(** * Clightd: the event dispatcher, the frame capture and the gamma mathematics

    A shallow embedding of three parts of the daemon and the proofs of what
    its specification says about them.

    - [Dispatcher]: main.c, the poll loop, its handlers and the exit status.
    - [Camera]: camera.c, the V4L2 capture session, the brightness of a
      frame, the aggregate of the samples and the bus method.
    - [Gamma]: gamma.c, the three channels of a colour temperature, the
      bisection that inverts red and blue, the ramps written to the CRTCs and
      the temperature read back from them.

    Conventions.  A C [int] is a [Z]; every integer computed here stays far
    from the limits of 32 bits, so no wrap-around is written.  A C [double] is
    an exact number: a rational [Q] in the capture code, which only adds,
    subtracts, divides and compares, and a real [R] in the gamma code, which
    calls [log]; rounding to binary64 is outside that model, and a division by
    zero follows the convention of [Q] and [R] (the quotient is 0).  Where the
    last place of a result matters, the aggregate of the samples, the same
    code is also given with binary64 arithmetic ([compute_avg_brightness_b64]).  What the
    operating system, the driver and the bus answer is data of the model: a
    script of results consumed call by call, and every call that matters is
    appended to a trace. *)

From Stdlib Require Import ZArith QArith Reals List Bool Lia Sorted.
From Stdlib Require String Lqa Lra.
From Stdlib Require Import Floats.
Import ListNotations String.StringSyntax.

(** * Part I: the model *)

Module Dispatcher.
Local Open Scope Z_scope.

(** [enum poll_idx]; [GAMMA_SMOOTH] exists only in a build with GAMMA_PRESENT. *)
Inductive poll_idx : Type :=
| BUS | SIGNAL | BRIGHT_SMOOTH | GAMMA_SMOOTH | WEBCAM_MON | ALS_MON.

(** [enum quit_codes] *)
Definition LEAVE_W_ERR : Z := -1.
Definition SIGNAL_RCV : Z := 1.

(** Values of the C library and of Linux. *)
Definition EXIT_SUCCESS : Z := 0.
Definition EXIT_FAILURE : Z := 1.
Definition POLLIN : Z := 1.
Definition EINTR : Z := 4.

(** What one return of [poll] shows: its result, errno, and the [revents]
    of every entry of [main_p]. *)
Record wakeup : Type := mkWakeup {
  poll_ret : Z;
  poll_errno : Z;
  revents : poll_idx -> Z }.

(** The daemon: the flag [quit], the results the coming calls of
    [sd_bus_process] give, and the handlers run so far, each with the value
    of [quit] it left. *)
Record daemon : Type := mkDaemon {
  quit : Z;
  bus_script : list Z;
  calls : list (poll_idx * Z) }.

(** The results of the three calls [main] makes before it polls. *)
Record startup : Type := mkStartup {
  sd_bus_default_system : Z;
  sd_bus_add_object_vtable : Z;
  sd_bus_request_name : Z }.

(** [do { r = sd_bus_process(bus, NULL); if (r < 0) quit = LEAVE_W_ERR; }
    while (r > 0)]; a script that has run out answers 0, nothing to process. *)
Fixpoint bus_process (script : list Z) (q : Z) : Z * list Z :=
  match script with
  | [] => (q, [])
  | r :: rest =>
      let q := if r <? 0 then LEAVE_W_ERR else q in
      if 0 <? r then bus_process rest q else (q, rest)
  end.

Definition record (i : poll_idx) (d : daemon) : daemon :=
  mkDaemon (quit d) (bus_script d) (calls d ++ [(i, quit d)]).

Definition bus_cb (d : daemon) : daemon :=
  let '(q, rest) := bus_process (bus_script d) (quit d) in
  record BUS (mkDaemon q rest (calls d)).

Definition signal_cb (d : daemon) : daemon :=
  record SIGNAL (mkDaemon SIGNAL_RCV (bus_script d) (calls d)).

(** The [switch (i)] of [main_poll].  The smoothing callbacks and the hotplug
    branch live outside main.c or only emit bus signals; [quit] is static to
    main.c, so none of them changes it. *)
Definition dispatch (i : poll_idx) (d : daemon) : daemon :=
  match i with
  | BUS => bus_cb d
  | SIGNAL => signal_cb d
  | BRIGHT_SMOOTH => record BRIGHT_SMOOTH d
  | GAMMA_SMOOTH => record GAMMA_SMOOTH d
  | WEBCAM_MON => record WEBCAM_MON d
  | ALS_MON => record ALS_MON d
  end.

Section Build.
Variable GAMMA_PRESENT : bool.

(** The entries of [main_p], in the order of the enumeration. *)
Definition poll_order : list poll_idx :=
  [BUS; SIGNAL; BRIGHT_SMOOTH]
  ++ (if GAMMA_PRESENT then [GAMMA_SMOOTH] else [])
  ++ [WEBCAM_MON; ALS_MON].

Definition POLL_SIZE : Z := Z.of_nat (List.length poll_order).

(** [for (int i = 0; i < POLL_SIZE && !quit && r > 0; i++)], over the
    entries still to visit. *)
Fixpoint scan (order : list poll_idx) (w : wakeup) (r : Z) (d : daemon)
  : daemon :=
  match order with
  | [] => d
  | i :: rest =>
      if (quit d =? 0) && (0 <? r) then
        if negb (Z.land (revents w i) POLLIN =? 0)
        then scan rest w (r - 1) (dispatch i d)
        else scan rest w r d
      else d
  end.

(** [while (!quit)]; [None] when [poll] is left waiting with no wake-up to
    come. *)
Fixpoint main_poll (wakeups : list wakeup) (d : daemon) : option daemon :=
  if quit d =? 0 then
    match wakeups with
    | [] => None
    | w :: rest =>
        let r := poll_ret w in
        let d := if (r =? -1) && negb (poll_errno w =? EINTR)
                 then mkDaemon LEAVE_W_ERR (bus_script d) (calls d) else d in
        main_poll rest (scan poll_order w r d)
    end
  else Some d.

(** The value [main] returns at the label [finish]. *)
Definition finish (d : daemon) : Z :=
  if quit d =? LEAVE_W_ERR then EXIT_FAILURE else EXIT_SUCCESS.

Definition main (s : startup) (script : list Z) (wakeups : list wakeup)
  : option Z :=
  let d := mkDaemon 0 script [] in
  if sd_bus_default_system s <? 0 then Some (finish d)
  else if sd_bus_add_object_vtable s <? 0 then Some (finish d)
  else if sd_bus_request_name s <? 0 then Some (finish d)
  else
    match main_poll wakeups (bus_cb d) with
    | Some d => Some (finish d)
    | None => None
    end.
End Build.

(** The place of an entry in the enumeration. *)
Definition rank (i : poll_idx) : nat :=
  match i with
  | BUS => 0 | SIGNAL => 1 | BRIGHT_SMOOTH => 2 | GAMMA_SMOOTH => 3
  | WEBCAM_MON => 4 | ALS_MON => 5
  end.

(** The [revents] of a wake-up in which exactly the entries of [l] are
    readable. *)
Definition ready (l : list poll_idx) (i : poll_idx) : Z :=
  if existsb (fun j => (rank i =? rank j)%nat) l then POLLIN else 0.

(** Order of two recorded calls, by the place of their entries. *)
Definition before (a b : poll_idx * Z) : Prop := (rank (fst a) < rank (fst b))%nat.

(** An entry is ready when its [revents] has POLLIN. *)
Definition is_ready (w : wakeup) (i : poll_idx) : bool :=
  negb (Z.land (revents w i) POLLIN =? 0).

(** What one scan adds to the recorded calls: [new], after which the daemon
    is [d']. *)
Definition scan_result (order : list poll_idx) (w : wakeup) (r : Z)
  (d d' : daemon) (new : list (poll_idx * Z)) : Prop :=
  StronglySorted before new /\
  (forall c, In c new -> In (fst c) order /\ is_ready w (fst c) = true) /\
  (forall c, In c new ->
     snd c = 0 \/ (fst c = SIGNAL /\ snd c = SIGNAL_RCV) \/
     (fst c = BUS /\ snd c = LEAVE_W_ERR)) /\
  (forall l1 c l2, new = l1 ++ c :: l2 -> snd c <> 0 -> l2 = []) /\
  (quit d <> 0 -> new = []) /\
  (quit d' = 0 -> Z.of_nat (List.length (filter (is_ready w) order)) <= r ->
   forall i, In i order -> is_ready w i = true -> In i (map fst new)).

(** Running the handlers of the entries of [l], one after the other. *)
Definition serve (l : list poll_idx) (d : daemon) : daemon :=
  fold_left (fun d i => dispatch i d) l d.



(** A wake-up that serves nothing: [poll] was interrupted or reports no
    ready entry. *)
Definition idle (w : wakeup) : bool :=
  (poll_ret w <=? 0) && negb ((poll_ret w =? -1) && negb (poll_errno w =? EINTR)).

End Dispatcher.

Module Camera.
Local Open Scope string_scope.
Local Open Scope Z_scope.

(** errno values and V4L2 capability bits, as the Linux headers define them. *)
Definition EPERM : Z := 1.
Definition EINTR : Z := 4.
Definition EINVAL : Z := 22.
Definition V4L2_CAP_VIDEO_CAPTURE : Z := 0x00000001.
Definition V4L2_CAP_STREAMING : Z := 0x04000000.

(** Pointers are addresses; [MAP_FAILED] is the address -1 cast to a pointer. *)
Definition NULL : Z := 0.
Definition MAP_FAILED : Z := -1.

Inductive request : Type :=
| VIDIOC_QUERYCAP | VIDIOC_S_PRIORITY | VIDIOC_S_FMT | VIDIOC_REQBUFS
| VIDIOC_QUERYBUF | VIDIOC_STREAMON | VIDIOC_STREAMOFF | VIDIOC_QBUF
| VIDIOC_DQBUF.

(** One raw [ioctl] call: success, or -1 with a (positive) errno. *)
Inductive ioctl_ret : Type :=
| IoOk
| IoErr (errno : positive).

(** A frame as the driver hands it over at a successful dequeue. *)
Record frame : Type := mkFrame {
  bytesused : Z;
  pixels : list Z }.

(** What the kernel, the driver and the allocator answer. *)
Record device : Type := mkDevice {
  open_result : Z;
  capabilities : Z;
  fmt_width : Z;
  fmt_height : Z;
  buf_length : Z;
  buf_offset : Z;
  mmap_result : Z;
  calloc_ok : bool }.

Inductive event : Type :=
| EvLookup (interface : String.string)
| EvOpen (path : String.string) (fd : Z)
| EvIoctl (req : request) (r : Z)
| EvMmap (length offset addr : Z)
| EvCalloc (n : Z) (ok : bool)
| EvClose (fd : Z)
| EvMunmap (addr length : Z)
| EvFree.

(** [struct state] *)
Record state : Type := mkState {
  quit : Z;
  width : Z;
  height : Z;
  device_fd : Z;
  buf_size : Z;
  brightness_values : option (list Q);
  buffer : Z }.

(** The C state together with the part of the world the capture touches. *)
Record machine : Type := mkMachine {
  st : state;
  dev : device;
  script : list ioctl_ret;
  frames : list frame;
  mapped : list Z;
  trace : list event }.

Definition zero_state : state := mkState 0 0 0 0 0 None NULL.

Definition with_st (f : state -> state) (m : machine) : machine :=
  mkMachine (f (st m)) (dev m) (script m) (frames m) (mapped m) (trace m).
Definition set_quit (v : Z) : machine -> machine :=
  with_st (fun s => mkState v (width s) (height s) (device_fd s) (buf_size s)
                            (brightness_values s) (buffer s)).
Definition set_size (w h : Z) : machine -> machine :=
  with_st (fun s => mkState (quit s) w h (device_fd s) (buf_size s)
                            (brightness_values s) (buffer s)).
Definition set_device_fd (v : Z) : machine -> machine :=
  with_st (fun s => mkState (quit s) (width s) (height s) v (buf_size s)
                            (brightness_values s) (buffer s)).
Definition set_buf_size (v : Z) : machine -> machine :=
  with_st (fun s => mkState (quit s) (width s) (height s) (device_fd s) v
                            (brightness_values s) (buffer s)).
Definition set_brightness_values (v : option (list Q)) : machine -> machine :=
  with_st (fun s => mkState (quit s) (width s) (height s) (device_fd s)
                            (buf_size s) v (buffer s)).
Definition set_buffer (v : Z) : machine -> machine :=
  with_st (fun s => mkState (quit s) (width s) (height s) (device_fd s)
                            (buf_size s) (brightness_values s) v).
Definition log (e : event) (m : machine) : machine :=
  mkMachine (st m) (dev m) (script m) (frames m) (mapped m) (trace m ++ [e]).
Definition with_script (l : list ioctl_ret) (m : machine) : machine :=
  mkMachine (st m) (dev m) l (frames m) (mapped m) (trace m).

(** The [do ... while (-1 == r && EINTR == errno)] of [xioctl]: the result
    [(r, errno)] of the last call and what is left of the script.  A script
    that has run out answers success. *)
Fixpoint ioctl_retry (l : list ioctl_ret) : Z * Z * list ioctl_ret :=
  match l with
  | [] => (0, 0, [])
  | IoOk :: rest => (0, 0, rest)
  | IoErr e :: rest =>
      if Z.pos e =? EINTR then ioctl_retry rest else (-1, Z.pos e, rest)
  end.

Definition xioctl (req : request) (m : machine) : Z * machine :=
  let '(r, errno, rest) := ioctl_retry (script m) in
  let m := log (EvIoctl req r) (with_script rest m) in
  if r =? -1 then (r, set_quit errno m) else (r, m).

Definition open_device (interface : String.string) (m : machine) : machine :=
  let fd := open_result (dev m) in
  let m := log (EvOpen interface fd) (set_device_fd fd m) in
  if device_fd (st m) =? -1 then set_quit 1 m else m.

Definition init (m : machine) : machine :=
  let '(r, m) := xioctl VIDIOC_QUERYCAP m in
  if r =? -1 then m
  else if Z.land (capabilities (dev m)) V4L2_CAP_VIDEO_CAPTURE =? 0 then set_quit 1 m
  else if Z.land (capabilities (dev m)) V4L2_CAP_STREAMING =? 0 then set_quit 1 m
  else
    let '(r, m) := xioctl VIDIOC_S_PRIORITY m in
    let m := if r =? -1 then set_quit 0 m else m in
    let '(r, m) := xioctl VIDIOC_S_FMT m in
    if r =? -1 then m
    else set_size (fmt_width (dev m)) (fmt_height (dev m)) m.

Definition init_mmap (m : machine) : machine :=
  let '(r, m) := xioctl VIDIOC_REQBUFS m in
  if r =? -1 then m
  else
    let '(r, m) := xioctl VIDIOC_QUERYBUF m in
    if r =? -1 then m
    else
      let addr := mmap_result (dev m) in
      let m := log (EvMmap (buf_length (dev m)) (buf_offset (dev m)) addr)
                   (set_buffer addr m) in
      let m := if buffer (st m) =? MAP_FAILED then set_quit 1 m else m in
      set_buf_size (buf_length (dev m)) m.

Definition start_stream (m : machine) : machine := snd (xioctl VIDIOC_STREAMON m).
Definition stop_stream (m : machine) : machine := snd (xioctl VIDIOC_STREAMOFF m).

Local Open Scope Q_scope.

(** [for (int i = 0; i < size; i += 2) brightness += buffer[i]], [n] being the
    number of iterations left. *)
Fixpoint sum_luma (n : nat) (i : nat) (buf : list Z) (brightness : Q) : Q :=
  match n with
  | O => brightness
  | S n' => sum_luma n' (i + 2) buf (brightness + inject_Z (nth i buf 0%Z))
  end.

Definition compute_brightness (size : Z) (m : machine) : Q :=
  let brightness := sum_luma (Z.to_nat ((size + 1) / 2)) 0 (mapped m) 0 in
  brightness / inject_Z (width (st m) * height (st m)).

Definition Qltb (x y : Q) : bool :=
  match x ?= y with Lt => true | _ => false end.

(** The loop of [compute_avg_brightness]: [n] iterations left from index [i]. *)
Fixpoint avg_scan (values : list Q) (n : nat) (i lowest highest : nat) (total : Q)
  : nat * nat * Q :=
  match n with
  | O => (lowest, highest, total)
  | S n' =>
      let v := nth i values 0 in
      let '(lowest', highest') :=
        if Qltb v (nth lowest values 0) then (i, highest)
        else if Qltb (nth highest values 0) v then (lowest, i)
        else (lowest, highest) in
      avg_scan values n' (S i) lowest' highest' (total + v)
  end.

Definition compute_avg_brightness (values : list Q) (num_captures : Z) : Q :=
  let '(lowest, highest, total) := avg_scan values (Z.to_nat num_captures) 0 0 0 0 in
  let '(total, num_captures) :=
    if negb (Qeq_bool total 0) && (2 <? num_captures)%Z
    then (total - (nth highest values 0 + nth lowest values 0), (num_captures - 2)%Z)
    else (total, num_captures) in
  let total := total / 255 in
  total / inject_Z num_captures.

Local Close Scope Q_scope.

(** ** The aggregate in binary64

    The same loop and the same aggregate with the arithmetic the C code
    runs: a [double] is a binary64 number and every operation rounds.  An
    [int] converted to [double] is exact; only counts from 1 to 20 reach the
    conversion. *)
Definition double_of_int (n : Z) : float := PrimFloat.of_uint63 (Uint63.of_Z n).

Fixpoint avg_scan_b64 (values : list float) (n : nat) (i lowest highest : nat)
  (total : float) : nat * nat * float :=
  match n with
  | O => (lowest, highest, total)
  | S n' =>
      let v := nth i values 0%float in
      let '(lowest', highest') :=
        if PrimFloat.ltb v (nth lowest values 0%float) then (i, highest)
        else if PrimFloat.ltb (nth highest values 0%float) v then (lowest, i)
        else (lowest, highest) in
      avg_scan_b64 values n' (S i) lowest' highest' (PrimFloat.add total v)
  end.

Definition compute_avg_brightness_b64 (values : list float) (num_captures : Z)
  : float :=
  let '(lowest, highest, total) :=
    avg_scan_b64 values (Z.to_nat num_captures) 0 0 0 0%float in
  let '(total, num_captures) :=
    if negb (PrimFloat.eqb total 0%float) && (2 <? num_captures)%Z
    then (PrimFloat.sub total
            (PrimFloat.add (nth highest values 0%float) (nth lowest values 0%float)),
          (num_captures - 2)%Z)
    else (total, num_captures) in
  let total := PrimFloat.div total 255%float in
  PrimFloat.div total (double_of_int num_captures).

(** [total] after [n] additions of [v]. *)
Fixpoint running_sum (v : float) (n : nat) (total : float) : float :=
  match n with
  | O => total
  | S n' => running_sum v n' (PrimFloat.add total v)
  end.

(** Storing [v] at index [i] of an array. *)
Fixpoint store (i : nat) (v : Q) (a : list Q) : list Q :=
  match a, i with
  | [], _ => []
  | _ :: t, O => v :: t
  | h :: t, S i' => h :: store i' v t
  end.

Definition next_frame (m : machine) : frame * machine :=
  match frames m with
  | [] => (mkFrame 0 [], m)
  | f :: rest =>
      (f, mkMachine (st m) (dev m) (script m) rest (pixels f) (trace m))
  end.

(** [None]: the sample is written through a null [brightness_values]. *)
Definition capture_frame (i : nat) (m : machine) : option machine :=
  let '(r, m) := xioctl VIDIOC_QBUF m in
  if r =? -1 then Some (stop_stream m)
  else
    let '(r, m) := xioctl VIDIOC_DQBUF m in
    if r =? -1 then Some m
    else
      let '(buf, m) := next_frame m in
      match brightness_values (st m) with
      | None => None
      | Some a =>
          Some (set_brightness_values
                  (Some (store i (compute_brightness (bytesused buf) m) a)) m)
      end.

(** [for (int i = 0; i < num_captures && !state->quit; i++) capture_frame(i)],
    [n] being [num_captures - i]. *)
Fixpoint capture_loop (n : nat) (i : nat) (m : machine) : option machine :=
  match n with
  | O => Some m
  | S n' =>
      if quit (st m) =? 0 then
        match capture_frame i m with
        | Some m' => capture_loop n' (S i) m'
        | None => None
        end
      else Some m
  end.

Definition free_all (m : machine) : machine :=
  let m := if negb (device_fd (st m) =? -1)
           then log (EvClose (device_fd (st m))) m else m in
  let m := if negb (buffer (st m) =? NULL)
           then log (EvMunmap (buffer (st m)) (buf_size (st m))) m else m in
  match brightness_values (st m) with
  | Some _ => log EvFree m
  | None => m
  end.

Definition allocate (num_captures : Z) (m : machine) : machine :=
  let a := if calloc_ok (dev m)
           then Some (repeat 0%Q (Z.to_nat num_captures)) else None in
  log (EvCalloc num_captures (calloc_ok (dev m))) (set_brightness_values a m).

(** The tail of [capture_frames] from the label [end]. *)
Definition capture_end (avg_brightness : Q) (err : Z) (m : machine)
  : Q * Z * machine :=
  let err := if negb (quit (st m) =? 0) then quit (st m) else err in
  (avg_brightness, err, free_all m).

Definition capture_frames (interface : String.string) (num_captures : Z) (err : Z)
  (m : machine) : option (Q * Z * machine) :=
  let avg_brightness := (-1)%Q in
  let m := with_st (fun _ => zero_state) m in
  let m := open_device interface m in
  if quit (st m) =? 0 then
    let m := init m in
    if negb (quit (st m) =? 0) then Some (capture_end avg_brightness err m)
    else
      let m := init_mmap m in
      if negb (quit (st m) =? 0) then Some (capture_end avg_brightness err m)
      else
        let m := allocate num_captures m in
        let m := start_stream m in
        if negb (quit (st m) =? 0) then Some (capture_end avg_brightness err m)
        else
          match capture_loop (Z.to_nat num_captures) 0 m with
          | None => None
          | Some m =>
              let m := stop_stream m in
              if quit (st m) =? 0 then
                match brightness_values (st m) with
                | None => None
                | Some a =>
                    Some (capture_end (compute_avg_brightness a num_captures) err m)
                end
              else Some (capture_end avg_brightness err m)
          end
  else Some (capture_end avg_brightness err m).

(** A method call: whether polkit authorizes the caller, and what reading
    the parameters "si" gives: a negative error or the two parameters. *)
Inductive parameters : Type :=
| ReadError (r : Z)
| Read (video_interface : String.string) (num_captures : Z).

Record message : Type := mkMessage {
  authorized : bool;
  body : parameters }.

Inductive bus_error : Type :=
| ErrorErrno (e : Z)
| ErrorConst (name text : String.string).

Inductive reply : Type :=
| Failure (r : Z) (ret_error : option bus_error)
| MethodReturn (val : Q).

Definition SD_BUS_ERROR_FAILED : String.string := "org.freedesktop.DBus.Error.Failed".

Section Method.
(** The device lookup of udev.c, a function of this repository whose source
    is not at hand: the errno it reports, or the device node it found. *)
Variable get_udev_device : String.string -> Z + String.string.

Definition method_captureframes (msg : message) (m : machine)
  : option (reply * machine) :=
  if negb (authorized msg) then Some (Failure (- EPERM) (Some (ErrorErrno EPERM)), m)
  else
    match body msg with
    | ReadError r => Some (Failure r None, m)
    | Read video_interface num_captures =>
        if (num_captures <=? 0) || (20 <? num_captures) then
          Some (Failure (- EINVAL)
                  (Some (ErrorConst SD_BUS_ERROR_FAILED
                           "Number of captures should be between 1 and 20.")), m)
        else
          let m := log (EvLookup video_interface) m in
          match get_udev_device video_interface with
          | inl e => Some (Failure (- e) (Some (ErrorErrno e)), m)
          | inr devnode =>
              match capture_frames devnode num_captures 0 m with
              | None => None
              | Some (val, error, m) =>
                  if negb (error =? 0)
                  then Some (Failure (- error) (Some (ErrorErrno error)), m)
                  else Some (MethodReturn val, m)
              end
          end
    end.
End Method.

(** A machine about to serve a request: nothing mapped, nothing traced. *)
Definition fresh (d : device) (l : list ioctl_ret) (fs : list frame) : machine :=
  mkMachine zero_state d l fs [] [].

(** Sum of the samples. *)
Fixpoint Qsum (l : list Q) : Q :=
  match l with
  | [] => 0%Q
  | x :: t => (x + Qsum t)%Q
  end.

(** An ioctl that enqueues or dequeues a frame has failed. *)
Definition frame_ioctl_failed (tr : list event) : Prop :=
  In (EvIoctl VIDIOC_QBUF (-1)) tr \/ In (EvIoctl VIDIOC_DQBUF (-1)) tr.

(** Once a frame ioctl has failed, [quit] is set. *)
Definition quit_recorded (m : machine) : Prop :=
  frame_ioctl_failed (trace m) -> quit (st m) <> 0.

Definition frame_request (req : request) : bool :=
  match req with
  | VIDIOC_QBUF | VIDIOC_DQBUF => true
  | _ => false
  end.


(** An ioctl other than the priority request has failed. *)
Definition ioctl_failed (tr : list event) : Prop :=
  exists req, req <> VIDIOC_S_PRIORITY /\ In (EvIoctl req (-1)) tr.

(** Once such an ioctl has failed, [quit] is set. *)
Definition failure_recorded (m : machine) : Prop :=
  ioctl_failed (trace m) -> quit (st m) <> 0.

(** The brightness of a frame on a device whose format is that of [d]: what
    [compute_brightness] gives once the frame is in the buffer. *)
Definition frame_brightness (d : device) (f : frame) : Q :=
  (sum_luma (Z.to_nat ((bytesused f + 1) / 2)) 0 (pixels f) 0
   / inject_Z (fmt_width d * fmt_height d))%Q.

(** Every answer left in the script is a success. *)
Definition all_ok (l : list ioctl_ret) : Prop := Forall (fun r => r = IoOk) l.

(** The answer of one raw call as [ioctl] returns it. *)
Definition ioctl_result (r : ioctl_ret) : Z :=
  match r with IoOk => 0 | IoErr _ => -1 end.

End Camera.

(** Concrete devices, scripts and requests the facts below are run on. *)
Module Scenario.
Import Camera.
Local Open Scope string_scope.
Local Open Scope Z_scope.

(** A capture device whose driver adjusts the requested format to 16x16
    (two bytes a pixel, so a buffer of 512 bytes). *)
Definition video0 : device := mkDevice 3 0x04000001 16 16 512 0 0x7f0000000000 true.

(** The same webcam when the kernel refuses the mapping. *)
Definition video0_unmappable : device :=
  mkDevice 3 0x04000001 16 16 512 0 MAP_FAILED true.

Definition lookup_video0 (_ : String.string) : Z + String.string := inr "/dev/video0".

(** A frame whose luma bytes (the even ones) all are [level]. *)
Definition gray (level : Z) : frame := mkFrame 512 (repeat level 512).

(** Setup and the first frame succeed, enqueueing the second frame fails
    with EIO. *)
Definition second_frame_fails : list ioctl_ret := repeat IoOk 8 ++ [IoErr 5].

Definition capture_request (n : Z) : message := mkMessage true (Read "" n).

(** A mapped frame of 2x2 pixels, and the same frame with other chroma
    bytes. *)
Definition tiny : machine :=
  mkMachine (mkState 0 2 2 3 8 None 1) video0 [] [] [7; 0; 255; 9; 30; 1; 8; 2] [].
Definition tiny_recoloured : machine :=
  mkMachine (mkState 0 2 2 3 8 None 1) video0 [] []
    [7; 128; 255; 128; 30; 128; 8; 128] [].

(** Setup and the only frame succeed, stopping the stream fails with EIO. *)
Definition stream_off_fails : list ioctl_ret := repeat IoOk 8 ++ [IoErr 5].

(** A device that streams but does not capture. *)
Definition tuner0 : device :=
  mkDevice 3 0x04000000 16 16 512 0 0x7f0000000000 true.

End Scenario.

Module Gamma.
Local Open Scope R_scope.

(** Conversion of a double to an integer type truncates toward zero. *)
Definition trunc (x : R) : Z :=
  if Rle_dec 0 x then Int_part x else (- Int_part (- x))%Z.

(** Conversion to [unsigned short].  C leaves it undefined when the truncated
    value does not fit; the model wraps modulo 2^16, as the code generated for
    x86-64 does.  The facts below show the value fits wherever they use it. *)
Definition to_ushort (x : R) : Z := (trunc x mod 65536)%Z.

Definition clamp (x max : R) : Z :=
  if Rgt_dec x max then to_ushort max else to_ushort x.

Definition get_red (temp : Z) : Z :=
  if (temp <=? 6500)%Z then 255%Z
  else
    let a := 351.97690566805693 in
    let b := 0.114206453784165 in
    let c := - 40.25366309332127 in
    let new_temp := IZR temp / 100 - 55 in
    clamp (a + b * new_temp + c * ln new_temp) 255.

Definition get_green (temp : Z) : Z :=
  let '(a, b, c, new_temp) :=
    if (temp <=? 6500)%Z
    then (- 155.25485562709179, - 0.44596950469579133, 104.49216199393888,
          IZR temp / 100 - 2)
    else (325.4494125711974, 0.07943456536662342, - 28.0852963507957,
          IZR temp / 100 - 50) in
  clamp (a + b * new_temp + c * ln new_temp) 255.

Definition get_blue (temp : Z) : Z :=
  if (temp <=? 1900)%Z then 0%Z
  else if (temp <? 6500)%Z then
    let new_temp := IZR temp / 100 - 10 in
    let a := - 254.76935184120902 in
    let b := 0.8274096064007395 in
    let c := 115.67994401066147 in
    clamp (a + b * new_temp + c * ln new_temp) 255
  else 255%Z.

(** [(double) testB / testR > (double) B / R] *)
Definition ratio_gt (testB testR B R : Z) : bool :=
  if Rgt_dec (IZR testB / IZR testR) (IZR B / IZR R) then true else false.

(** The [do ... while (testR != R || testB != B)] of [get_temp]; [fuel]
    bounds the number of iterations, [None] when it runs out. *)
Fixpoint bisect (fuel : nat) (min_temp max_temp R B : Z) : option Z :=
  match fuel with
  | O => None
  | S fuel' =>
      let temperature := Z.quot (max_temp + min_temp) 2 in
      let testR := get_red temperature in
      let testB := get_blue temperature in
      let max_temp' := if ratio_gt testB testR B R then temperature else max_temp in
      let min_temp' := if ratio_gt testB testR B R then min_temp else temperature in
      if negb (testR =? R)%Z || negb (testB =? B)%Z
      then bisect fuel' min_temp' max_temp' R B
      else Some temperature
  end.

(** The last part of [get_temp]: try to fit the value in steps of 50. *)
Definition fit50 (temperature R B : Z) : Z :=
  if negb (Z.rem temperature 50 =? 0)%Z then
    let tmp_temp := (temperature - Z.rem temperature 50)%Z in
    if (get_red tmp_temp =? R)%Z && (get_blue tmp_temp =? B)%Z then tmp_temp
    else
      let tmp_temp := (temperature + 50 - Z.rem temperature 50)%Z in
      if (get_red tmp_temp =? R)%Z && (get_blue tmp_temp =? B)%Z then tmp_temp
      else temperature
  else temperature.

(** The lower and the upper bound the search starts from. *)
Definition min_temp_init (B : Z) : Z := if (B =? 255)%Z then 6500%Z else 1000%Z.
Definition max_temp_init (R : Z) : Z := if (R =? 255)%Z then 6500%Z else 10000%Z.

Definition get_temp (fuel : nat) (R B : Z) : option Z :=
  match bisect fuel (min_temp_init B) (max_temp_init R) R B with
  | Some temperature => Some (fit50 temperature R B)
  | None => None
  end.

(** ** The hardware sink

    What the X server shows of the default screen: [None] when the display
    cannot be opened, else its CRTCs, each with the size of its gamma ramp
    and the three ramps. *)
Record crtc : Type := mkCrtc {
  gamma_size : Z;
  ramp_red : list Z;
  ramp_green : list Z;
  ramp_blue : list Z }.

Definition ENXIO : Z := 6.

(** One channel of the ramp [set_gamma] builds: entry [j] is
    [65535.0 * j / size] times the ratio of the channel, stored in an
    [unsigned short]. *)
Definition ramp (size : Z) (ratio : R) : list Z :=
  map (fun j => to_ushort (65535 * IZR (Z.of_nat j) / IZR size * ratio))
      (seq 0 (Z.to_nat size)).

(** [set_gamma]: the new value of [*err] and the display afterwards. *)
Definition set_gamma (temp : Z) (err : Z) (dpy : option (list crtc))
  : Z * option (list crtc) :=
  match dpy with
  | None => (ENXIO, None)
  | Some crtcs =>
      let red := IZR (get_red temp) / 255 in
      let green := IZR (get_green temp) / 255 in
      let blue := IZR (get_blue temp) / 255 in
      (err,
       Some (map (fun c =>
                    let size := gamma_size c in
                    mkCrtc size (ramp size red) (ramp size green) (ramp size blue))
                 crtcs))
  end.

(** [get_gamma]: the temperature it returns and the new value of [*err];
    [None] when the loop of [get_temp] runs out of fuel.  An entry read
    beyond the end of a ramp reads as 0. *)
Definition get_gamma (fuel : nat) (err : Z) (dpy : option (list crtc))
  : option (Z * Z) :=
  match dpy with
  | None => Some ((-1)%Z, ENXIO)
  | Some [] => Some ((-1)%Z, 1%Z)
  | Some (c :: _) =>
      match get_temp fuel (clamp (IZR (nth 1 (ramp_red c) 0%Z)) 255)
                          (clamp (IZR (nth 1 (ramp_blue c) 0%Z)) 255) with
      | None => None
      | Some temp => Some (temp, if (temp <=? 0)%Z then 1%Z else err)
      end
  end.

(** The ramps [get_gamma] reads have the entry 1 it reads. *)
Definition readable (dpy : option (list crtc)) : Prop :=
  match dpy with
  | Some (c :: _) =>
      (2 <= List.length (ramp_red c))%nat /\ (2 <= List.length (ramp_blue c))%nat
  | _ => True
  end.


(** The fitted curve [a + b x + c ln x] and its four instances. *)
Definition curve (a b c x : R) : R := a + b * x + c * ln x.

Definition red_curve : R -> R :=
  curve 351.97690566805693 0.114206453784165 (- 40.25366309332127).
Definition green_low_curve : R -> R :=
  curve (- 155.25485562709179) (- 0.44596950469579133) 104.49216199393888.
Definition green_high_curve : R -> R :=
  curve 325.4494125711974 0.07943456536662342 (- 28.0852963507957).
Definition blue_curve : R -> R :=
  curve (- 254.76935184120902) 0.8274096064007395 115.67994401066147.

End Gamma.

(** Certified lower bounds of the exponential, in fixed point: [exp_lb p q k]
    is below [exp (p / q)], scaled by [scale]; it squares [1 + p / (q 2^k)]
    [k] times, rounding down. *)
Module ExpBound.
Local Open Scope Z_scope.
Definition scale : Z := 10 ^ 18.
Definition sq_down (y : Z) : Z := (y * y) / scale.
Fixpoint sq_iter (k : nat) (y : Z) : Z :=
  match k with O => y | S k' => sq_iter k' (sq_down y) end.
Definition exp_lb (p q : Z) (k : nat) : Z :=
  let d := q * 2 ^ Z.of_nat k in
  sq_iter k ((scale * (d + p)) / d).
End ExpBound.

(** * Part II: the facts *)

Module DispatcherFacts.
Import Dispatcher.
Local Open Scope Z_scope.

Lemma poll_order_sorted gp :
  StronglySorted (fun a b => (rank a < rank b)%nat) (poll_order gp).
Proof.
  destruct gp; unfold poll_order; simpl;
    repeat (constructor; [| repeat constructor; simpl; lia]); constructor.
Qed.

Lemma dispatch_calls i d :
  calls (dispatch i d) = calls d ++ [(i, quit (dispatch i d))].
Proof.
  destruct i; simpl; try reflexivity.
  unfold bus_cb. destruct (bus_process _ _). reflexivity.
Qed.

Lemma bus_process_quit : forall script q,
  fst (bus_process script q) = q \/ fst (bus_process script q) = LEAVE_W_ERR.
Proof.
  induction script as [| r rest IH]; intro q; simpl; [now left |].
  destruct (r <? 0).
  - right. destruct (0 <? r); [| reflexivity].
    destruct (IH LEAVE_W_ERR) as [H | H]; exact H.
  - destruct (0 <? r); [apply IH | now left].
Qed.

(** Who sets [quit]: the signal handler, always, and the bus handler, when
    [sd_bus_process] fails. *)
Lemma dispatch_quit i d :
  quit d = 0 ->
  quit (dispatch i d) = 0 \/
  (i = SIGNAL /\ quit (dispatch i d) = SIGNAL_RCV) \/
  (i = BUS /\ quit (dispatch i d) = LEAVE_W_ERR).
Proof.
  intro Hq. destruct i; simpl; try (now left).
  - unfold bus_cb. pose proof (bus_process_quit (bus_script d) (quit d)) as H.
    destruct (bus_process _ _) as [q rest]. simpl in *.
    destruct H as [-> | ->]; [now left | right; right; now split].
  - right; left. now split.
Qed.

Lemma scan_spec w : forall order r d,
  StronglySorted (fun a b => (rank a < rank b)%nat) order ->
  exists new,
    calls (scan order w r d) = calls d ++ new /\
    scan_result order w r d (scan order w r d) new.
Proof.
  induction order as [| i rest IH]; intros r d Hsorted.
  { exists []. cbn [scan]. rewrite app_nil_r. split; [reflexivity |].
    split; [constructor | split; [| split; [| split; [| split]]]].
    - intros c [].
    - intros c [].
    - intros l1 c l2 H. now destruct l1.
    - reflexivity.
    - intros _ _ j []. }
  apply StronglySorted_inv in Hsorted. destruct Hsorted as [Hrest Hhead].
  cbn [scan]. destruct (Z.eqb_spec (quit d) 0) as [Hq | Hq]; cbn [andb].
  2:{ exists []. rewrite app_nil_r. split; [reflexivity |].
      split; [constructor | split; [| split; [| split; [| split]]]].
      - intros c [].
      - intros c [].
      - intros l1 c l2 H. now destruct l1.
      - reflexivity.
      - intro H. contradiction. }
  destruct (Z.ltb_spec 0 r) as [Hr | Hr].
  2:{ exists []. rewrite app_nil_r. split; [reflexivity |].
      split; [constructor | split; [| split; [| split; [| split]]]].
      - intros c [].
      - intros c [].
      - intros l1 c l2 H. now destruct l1.
      - reflexivity.
      - intros _ Hcount j Hj Hready. exfalso.
        assert (Hin : In j (filter (is_ready w) (i :: rest)))
          by (apply filter_In; now split).
        destruct (filter (is_ready w) (i :: rest)); [contradiction |].
        cbn [List.length] in Hcount. lia. }
  fold (is_ready w i). destruct (is_ready w i) eqn:Hin.
  - destruct (IH (r - 1) (dispatch i d) Hrest)
      as (new & Hcalls & Hs & Hready & Hwho & Hlast & Hquit & Hall).
    exists ((i, quit (dispatch i d)) :: new). split.
    { rewrite Hcalls, dispatch_calls, <- app_assoc. reflexivity. }
    split; [| split; [| split; [| split; [| split]]]].
    + constructor; [assumption |].
      apply Forall_forall. intros c Hc. unfold before. cbn [fst].
      destruct (Hready c Hc) as [Hc' _].
      rewrite Forall_forall in Hhead. now apply Hhead.
    + intros c [<- | Hc].
      * split; [now left | assumption].
      * destruct (Hready c Hc). split; [now right | assumption].
    + intros c [<- | Hc]; [apply dispatch_quit, Hq | now apply Hwho].
    + intros l1 c l2 Heq Hc. destruct l1 as [| c1 l1]; cbn [app] in Heq.
      * injection Heq as <- <-. cbn [snd] in Hc. now apply Hquit.
      * injection Heq as _ Heq. now apply (Hlast l1 c l2).
    + intro H. contradiction.
    + intros Hfinal Hcount j [<- | Hj] Hjr; [now left |]. right.
      apply Hall; try assumption.
      cbn [filter] in Hcount. rewrite Hin in Hcount.
      cbn [List.length] in Hcount. lia.
  - destruct (IH r d Hrest)
      as (new & Hcalls & Hs & Hready & Hwho & Hlast & Hquit & Hall).
    exists new. split; [assumption |].
    split; [assumption | split; [| split; [| split; [| split]]]]; try assumption.
    + intros c Hc. destruct (Hready c Hc). split; [now right | assumption].
    + intros Hfinal Hcount j [<- | Hj] Hjr; [congruence |].
      apply Hall; try assumption.
      cbn [filter] in Hcount. now rewrite Hin in Hcount.
Qed.

Lemma scan_stopped order w r d : quit d <> 0 -> scan order w r d = d.
Proof.
  intro Hq. apply Z.eqb_neq in Hq. destruct order; cbn [scan]; [reflexivity |].
  now rewrite Hq.
Qed.

Lemma last_cons {A : Type} (a : A) (l : list A) (x : A) :
  last (a :: l) x = last l a.
Proof.
  revert a x. induction l as [| b l IH]; intros a x; [reflexivity |].
  change (last (a :: b :: l) x) with (last (b :: l) x).
  now rewrite (IH b x), (IH b a).
Qed.

(** What one scan serves: the ready entries in the order of the table, from
    the first one on, up to the point where it stops. *)
Lemma scan_served w : forall order r d,
  exists new,
    calls (scan order w r d) = calls d ++ new /\
    scan order w r d = serve (map fst new) d /\
    (exists rest, filter (is_ready w) order = map fst new ++ rest) /\
    quit (scan order w r d) = last (map snd new) (quit d) /\
    (map fst new = filter (is_ready w) order \/
     quit (scan order w r d) <> 0 \/ r <= Z.of_nat (List.length new)).
Proof.
  induction order as [| i rest IH]; intros r d.
  { exists []. cbn [scan map filter last serve fold_left app].
    rewrite app_nil_r.
    split; [reflexivity | split; [reflexivity | split; [now exists [] |]]].
    split; [reflexivity | now left]. }
  assert (Hstop : scan (i :: rest) w r d = d -> quit d <> 0 \/ r <= 0 ->
    exists new,
      calls (scan (i :: rest) w r d) = calls d ++ new /\
      scan (i :: rest) w r d = serve (map fst new) d /\
      (exists rest', filter (is_ready w) (i :: rest) = map fst new ++ rest') /\
      quit (scan (i :: rest) w r d) = last (map snd new) (quit d) /\
      (map fst new = filter (is_ready w) (i :: rest) \/
       quit (scan (i :: rest) w r d) <> 0 \/ r <= Z.of_nat (List.length new))).
  { intros -> Hwhy. exists []. cbn [map last serve fold_left app List.length].
    rewrite app_nil_r.
    split; [reflexivity | split; [reflexivity | split]].
    { now exists (filter (is_ready w) (i :: rest)). }
    split; [reflexivity |].
    right. destruct Hwhy as [H | H]; [now left | right; cbn; lia]. }
  destruct (Z.eqb_spec (quit d) 0) as [Hq | Hq].
  2:{ apply Hstop; [now apply scan_stopped | now left]. }
  destruct (Z.ltb_spec 0 r) as [Hr | Hr].
  2:{ apply Hstop; [| now right]. cbn [scan].
      assert (H : (0 <? r) = false) by (apply Z.ltb_ge; lia).
      now rewrite H, andb_false_r. }
  assert (Hgo : (quit d =? 0) && (0 <? r) = true).
  { apply andb_true_iff. split; [now apply Z.eqb_eq | now apply Z.ltb_lt]. }
  cbn [scan filter]. rewrite Hgo. fold (is_ready w i).
  destruct (is_ready w i) eqn:Hin.
  - destruct (IH (r - 1) (dispatch i d))
      as (new & Hcalls & Hserve & [rest' Hpre] & Hquit & Hwhy).
    exists ((i, quit (dispatch i d)) :: new).
    split; [| split; [| split; [| split]]].
    + rewrite Hcalls, dispatch_calls, <- app_assoc. reflexivity.
    + rewrite Hserve. reflexivity.
    + exists rest'. cbn [map fst app]. now rewrite Hpre.
    + cbn [map snd]. now rewrite last_cons.
    + cbn [map fst List.length].
      destruct Hwhy as [H | [H | H]];
        [left; now rewrite H | right; now left | right; right; lia].
  - destruct (IH r d) as (new & Hcalls & Hserve & Hpre & Hquit & Hwhy).
    exists new. split; [exact Hcalls | split; [exact Hserve | split; [exact Hpre |]]].
    split; [exact Hquit | exact Hwhy].
Qed.

(** C8: in one wake-up the handlers run for ready sources only and in the
    order BUS, SIGNAL, BRIGHT_SMOOTH, GAMMA_SMOOTH (when built in),
    WEBCAM_MON, ALS_MON; [quit] is tested before every handler, so the handler
    that sets it (SIGNAL, or BUS on a processing error) is the last one of the
    wake-up, and none runs when it was set before; when no handler sets it and
    [poll] counted every ready source, all of them are served.  The sources
    served are the ready ones from the first on, none skipped: every ready
    source of higher priority than a served one is served before it.  The
    daemon after the scan is the daemon the handlers of these sources leave,
    run in that order, so the final [quit] is the one the last handler left
    (that of the start when none ran); and the scan stops short of a ready
    source only with [quit] set or with the count of [poll] used up. *)
Theorem scan_priority_order_and_quit (GAMMA_PRESENT : bool) (w : wakeup) (r : Z)
  (d : daemon) :
  poll_order true = [BUS; SIGNAL; BRIGHT_SMOOTH; GAMMA_SMOOTH; WEBCAM_MON; ALS_MON] /\
  poll_order false = [BUS; SIGNAL; BRIGHT_SMOOTH; WEBCAM_MON; ALS_MON] /\
  exists new,
    calls (scan (poll_order GAMMA_PRESENT) w r d) = calls d ++ new /\
    StronglySorted before new /\
    (forall c, In c new ->
       In (fst c) (poll_order GAMMA_PRESENT) /\ is_ready w (fst c) = true) /\
    (forall c, In c new ->
       snd c = 0 \/ (fst c = SIGNAL /\ snd c = SIGNAL_RCV) \/
       (fst c = BUS /\ snd c = LEAVE_W_ERR)) /\
    (forall l1 c l2, new = l1 ++ c :: l2 -> snd c <> 0 -> l2 = []) /\
    (quit d <> 0 -> new = []) /\
    (quit (scan (poll_order GAMMA_PRESENT) w r d) = 0 ->
     Z.of_nat (List.length (filter (is_ready w) (poll_order GAMMA_PRESENT))) <= r ->
     forall i, In i (poll_order GAMMA_PRESENT) -> is_ready w i = true ->
     In i (map fst new)) /\
    scan (poll_order GAMMA_PRESENT) w r d = serve (map fst new) d /\
    (exists rest,
       filter (is_ready w) (poll_order GAMMA_PRESENT) = map fst new ++ rest) /\
    quit (scan (poll_order GAMMA_PRESENT) w r d) = last (map snd new) (quit d) /\
    (map fst new = filter (is_ready w) (poll_order GAMMA_PRESENT) \/
     quit (scan (poll_order GAMMA_PRESENT) w r d) <> 0 \/
     r <= Z.of_nat (List.length new)).
Proof.
  split; [reflexivity | split; [reflexivity |]].
  destruct (scan_spec w (poll_order GAMMA_PRESENT) r d
              (poll_order_sorted GAMMA_PRESENT))
    as (new & Hcalls & Hs & Hready & Hwho & Hlast & Hquit & Hall).
  destruct (scan_served w (poll_order GAMMA_PRESENT) r d)
    as (new' & Hcalls' & Hserve & Hpre & Hfinal & Hwhy).
  assert (Hsame : new' = new).
  { rewrite Hcalls in Hcalls'. now apply app_inv_head in Hcalls'. }
  subst new'. exists new.
  split; [exact Hcalls | split; [exact Hs | split; [exact Hready |]]].
  split; [exact Hwho | split; [exact Hlast | split; [exact Hquit |]]].
  split; [exact Hall | split; [exact Hserve | split; [exact Hpre |]]].
  split; [exact Hfinal | exact Hwhy].
Qed.

(** The paths that do set the exit status: a caught signal ends the daemon
    with EXIT_SUCCESS, an error of [poll] other than EINTR and a failure of
    [sd_bus_process] end it with EXIT_FAILURE. *)
Lemma main_exit_status_other_paths (GAMMA_PRESENT : bool) :
  main GAMMA_PRESENT (mkStartup 0 0 0) []
    [mkWakeup 1 0 (ready [SIGNAL])] = Some EXIT_SUCCESS /\
  main GAMMA_PRESENT (mkStartup 0 0 0) []
    [mkWakeup (-1) 5 (ready [])] = Some EXIT_FAILURE /\
  main GAMMA_PRESENT (mkStartup 0 0 0) [-104] [] = Some EXIT_FAILURE /\
  main GAMMA_PRESENT (mkStartup 0 0 0) []
    [mkWakeup (-1) EINTR (ready []); mkWakeup 1 0 (ready [SIGNAL])]
  = Some EXIT_SUCCESS.
Proof. destruct GAMMA_PRESENT; repeat split; reflexivity. Qed.

(** C4, at the failing input: when the connection to the system bus fails,
    [main] reaches [finish] with [quit] still 0 and returns EXIT_SUCCESS; so
    it does when the vtable or the name request fails. *)
Theorem main_exit_status_after_startup_failure
  (GAMMA_PRESENT : bool) (r2 r3 : Z) (script : list Z) (wakeups : list wakeup) :
  main GAMMA_PRESENT (mkStartup (-111) r2 r3) script wakeups = Some EXIT_SUCCESS /\
  main GAMMA_PRESENT (mkStartup 0 (-12) r3) script wakeups = Some EXIT_SUCCESS /\
  main GAMMA_PRESENT (mkStartup 0 0 (-17)) script wakeups = Some EXIT_SUCCESS.
Proof. repeat split; reflexivity. Qed.

(** ** Why the daemon leaves *)

Lemma main_poll_stopped gp wakeups d :
  quit d <> 0 -> main_poll gp wakeups d = Some d.
Proof.
  intro Hq. apply Z.eqb_neq in Hq. destruct wakeups; cbn [main_poll]; now rewrite Hq.
Qed.







(** ** Interrupted and empty wake-ups *)

Lemma main_poll_idle gp w rest d :
  idle w = true -> main_poll gp (w :: rest) d = main_poll gp rest d.
Proof.
  intro Hidle. apply andb_true_iff in Hidle. destruct Hidle as [Hr Herr].
  apply negb_true_iff in Herr. apply Z.leb_le in Hr.
  cbn [main_poll]. destruct (Z.eqb_spec (quit d) 0) as [Hq | Hq].
  - rewrite Herr.
    assert (Hscan : scan (poll_order gp) w (poll_ret w) d = d).
    { unfold poll_order. cbn [app scan].
      assert (H : (0 <? poll_ret w) = false) by (apply Z.ltb_ge; lia).
      now rewrite H, andb_false_r. }
    rewrite Hscan. destruct rest; cbn [main_poll]; apply Z.eqb_eq in Hq; now rewrite Hq.
  - symmetry. now apply main_poll_stopped.
Qed.

(** A return of [poll] with EINTR, or with no ready entry, changes nothing:
    the daemon behaves as if these wake-ups had not happened. *)
Theorem main_poll_skips_idle_wakeups (GAMMA_PRESENT : bool)
  (wakeups : list wakeup) (d : daemon) :
  main_poll GAMMA_PRESENT wakeups d
  = main_poll GAMMA_PRESENT (filter (fun w => negb (idle w)) wakeups) d.
Proof.
  revert d. induction wakeups as [| w rest IH]; intro d; [reflexivity |].
  cbn [filter]. destruct (idle w) eqn:Hidle; cbn [negb].
  - rewrite main_poll_idle by assumption. apply IH.
  - cbn [main_poll]. destruct (quit d =? 0); [apply IH | reflexivity].
Qed.

(** ** Draining the bus *)

(** [bus_cb] processes the bus until a call of [sd_bus_process] returns 0 or
    fails: the calls after that one are left for the next wake-up; a failure
    sets LEAVE_W_ERR, anything else leaves [quit] as it was. *)
Theorem bus_process_drains (busy : list Z) (r : Z) (rest : list Z) (q : Z) :
  Forall (fun x => 0 < x) busy -> r <= 0 ->
  bus_process (busy ++ r :: rest) q
  = (if r <? 0 then LEAVE_W_ERR else q, rest) /\
  bus_process busy q = (q, []).
Proof.
  intros Hbusy Hr. induction Hbusy as [| x busy Hx _ IH]; cbn [app bus_process].
  - assert (H : (0 <? r) = false) by (apply Z.ltb_ge; lia).
    now rewrite H.
  - assert (H1 : (x <? 0) = false) by (apply Z.ltb_ge; lia).
    assert (H2 : (0 <? x) = true) by (apply Z.ltb_lt; lia).
    rewrite H1, H2. exact IH.
Qed.

Lemma bus_process_drains_witness :
  (Forall (fun x => 0 < x) [1; 1] /\ -104 <= 0) /\
  bus_process ([1; 1] ++ -104 :: [1; 0]) 0
  = (if -104 <? 0 then LEAVE_W_ERR else 0, [1; 0]) /\
  bus_process [1; 1] 0 = (0, []).
Proof.
  assert (H : Forall (fun x => 0 < x) [1; 1]) by (repeat constructor; lia).
  split; [split; [exact H | lia] |].
  apply (bus_process_drains [1; 1] (-104) [1; 0] 0); [exact H | lia].
Defined.

(** ** A signal stops the daemon within its wake-up *)

Lemma scan_ready w i order r d :
  quit d = 0 -> 0 < r -> is_ready w i = true ->
  scan (i :: order) w r d = scan order w (r - 1) (dispatch i d).
Proof.
  intros Hq Hr Hi. cbn [scan]. apply Z.ltb_lt in Hr. rewrite Hq, Hr.
  cbn [Z.eqb andb]. fold (is_ready w i). now rewrite Hi.
Qed.

Lemma scan_not_ready w i order r d :
  quit d = 0 -> 0 < r -> is_ready w i = false ->
  scan (i :: order) w r d = scan order w r d.
Proof.
  intros Hq Hr Hi. cbn [scan]. apply Z.ltb_lt in Hr. rewrite Hq, Hr.
  cbn [Z.eqb andb]. fold (is_ready w i). now rewrite Hi.
Qed.

(** When the signal descriptor is ready and [poll] counted it, the loop ends
    in that wake-up, whatever wake-ups would follow: with SIGNAL_RCV, or with
    LEAVE_W_ERR when the bus was ready too and its handler failed first. *)
Theorem main_poll_stops_on_signal (GAMMA_PRESENT : bool) (w : wakeup)
  (d : daemon) :
  quit d = 0 -> is_ready w SIGNAL = true ->
  (if is_ready w BUS then 2 else 1) <= poll_ret w ->
  exists d',
    (forall rest, main_poll GAMMA_PRESENT (w :: rest) d = Some d') /\
    (quit d' = SIGNAL_RCV \/ (quit d' = LEAVE_W_ERR /\ is_ready w BUS = true)).
Proof.
  intros Hq Hsig Hr.
  assert (Hpos : 0 < poll_ret w) by (destruct (is_ready w BUS); lia).
  assert (Herr : (poll_ret w =? -1) = false) by (apply Z.eqb_neq; lia).
  assert (Hstep : forall rest,
    main_poll GAMMA_PRESENT (w :: rest) d
    = main_poll GAMMA_PRESENT rest (scan (poll_order GAMMA_PRESENT) w (poll_ret w) d)).
  { intro rest. cbn [main_poll]. now rewrite Hq, Herr. }
  assert (Hsignal : forall order r d0, quit d0 = 0 -> 0 < r ->
    scan (SIGNAL :: order) w r d0 = signal_cb d0).
  { intros order r d0 Hq0 Hr0. rewrite scan_ready by assumption.
    now apply scan_stopped. }
  unfold poll_order in Hstep. cbn [app] in Hstep.
  destruct (is_ready w BUS) eqn:Hbus.
  - destruct (Z.eq_dec (quit (bus_cb d)) 0) as [Hq1 | Hq1].
    + exists (signal_cb (bus_cb d)). split; [| now left].
      intro rest. rewrite Hstep, scan_ready by assumption. cbn [dispatch].
      rewrite Hsignal by (assumption || lia).
      now apply main_poll_stopped.
    + exists (bus_cb d). split.
      * intro rest. rewrite Hstep, scan_ready by assumption. cbn [dispatch].
        rewrite scan_stopped by assumption. now apply main_poll_stopped.
      * right. split; [| reflexivity].
        destruct (dispatch_quit BUS d Hq) as [H | [[H _] | [_ H]]];
          [contradiction | discriminate | exact H].
  - exists (signal_cb d). split; [| now left].
    intro rest. rewrite Hstep, scan_not_ready by assumption.
    rewrite Hsignal by assumption. now apply main_poll_stopped.
Qed.

Lemma main_poll_stops_on_signal_witness :
  (quit (mkDaemon 0 [-104] []) = 0 /\
   is_ready (mkWakeup 2 0 (ready [BUS; SIGNAL])) SIGNAL = true /\
   (if is_ready (mkWakeup 2 0 (ready [BUS; SIGNAL])) BUS then 2 else 1)
   <= poll_ret (mkWakeup 2 0 (ready [BUS; SIGNAL]))) /\
  exists d',
    (forall rest,
       main_poll false (mkWakeup 2 0 (ready [BUS; SIGNAL]) :: rest)
         (mkDaemon 0 [-104] []) = Some d') /\
    (quit d' = SIGNAL_RCV \/
     (quit d' = LEAVE_W_ERR /\
      is_ready (mkWakeup 2 0 (ready [BUS; SIGNAL])) BUS = true)).
Proof.
  split; [split; [reflexivity | split; [reflexivity | simpl; lia]] |].
  apply (main_poll_stops_on_signal false (mkWakeup 2 0 (ready [BUS; SIGNAL]))
           (mkDaemon 0 [-104] [])); [reflexivity | reflexivity | simpl; lia].
Defined.

End DispatcherFacts.

Module CameraFacts.
Import Camera Scenario Lqa.
Local Open Scope string_scope.
Local Open Scope Z_scope.

(** ** The aggregation *)

Lemma Qltb_irrefl x : Qltb x x = false.
Proof.
  unfold Qltb. assert (H : (x ?= x)%Q = Eq) by (apply Qeq_alt; reflexivity).
  now rewrite H.
Qed.

Lemma avg_scan_zero values : Forall (fun v => (v == 0)%Q) values ->
  forall n i lowest highest total, (total == 0)%Q ->
  (snd (avg_scan values n i lowest highest total) == 0)%Q.
Proof.
  intros Hall. induction n as [| n IH]; intros i lowest highest total Ht; simpl.
  - exact Ht.
  - assert (Hv : (nth i values 0 == 0)%Q).
    { destruct (Nat.lt_ge_cases i (length values)) as [Hlt | Hge].
      - rewrite Forall_forall in Hall. apply Hall. now apply nth_In.
      - rewrite nth_overflow by assumption. reflexivity. }
    destruct (Qltb _ _); [| destruct (Qltb _ _)]; apply IH; rewrite Ht, Hv; reflexivity.
Qed.

Lemma nth_repeat_lt (v : Q) n i : (i < n)%nat -> nth i (repeat v n) 0%Q = v.
Proof.
  revert i. induction n as [| n IH]; intros i Hi; [lia |].
  destruct i as [| i]; simpl; [reflexivity | apply IH; lia].
Qed.

Lemma avg_scan_constant (v : Q) (n : nat) : (0 < n)%nat ->
  forall k i total, (i + k <= n)%nat ->
  exists total',
    avg_scan (repeat v n) k i 0 0 total = (0%nat, 0%nat, total') /\
    (total' == total + inject_Z (Z.of_nat k) * v)%Q.
Proof.
  intro Hn. induction k as [| k IH]; intros i total Hik.
  - exists total. split; [reflexivity |]. simpl. ring.
  - cbn [avg_scan]. rewrite !nth_repeat_lt by lia. rewrite Qltb_irrefl.
    destruct (IH (S i) (total + v)%Q ltac:(lia)) as (total' & Hrun & Htotal).
    exists total'. split; [exact Hrun |].
    rewrite Htotal, Nat2Z.inj_succ. unfold Z.succ. rewrite inject_Z_plus. ring.
Qed.

(** C5: on the samples 10, 90, 50, 60, 40 the scan finds the lowest sample at
    index 0 and the highest at index 1, and the aggregate is (50+60+40)/3/255,
    these two being dropped; with fewer than three
    samples nothing is dropped and the result is the mean of all samples
    divided by 255; when every sample is zero the result is 0. *)
Theorem compute_avg_brightness_trims_extremes :
  avg_scan [10; 90; 50; 60; 40]%Q 5 0 0 0 0 = (0%nat, 1%nat, 250%Q) /\
  (compute_avg_brightness [10; 90; 50; 60; 40] 5 == (50 + 60 + 40) / 3 / 255)%Q /\
  (forall values : list Q, (length values < 3)%nat ->
     (compute_avg_brightness values (Z.of_nat (length values))
      == Qsum values / inject_Z (Z.of_nat (length values)) / 255)%Q) /\
  (forall values : list Q, Forall (fun v => (v == 0)%Q) values ->
     (compute_avg_brightness values (Z.of_nat (length values)) == 0)%Q).
Proof.
  split; [reflexivity | split; [| split]].
  - vm_compute. reflexivity.
  - intros values Hlen.
    destruct values as [| a [| b [| c rest]]]; [| | | simpl in Hlen; lia].
    + vm_compute. reflexivity.
    + unfold compute_avg_brightness. simpl. rewrite Qltb_irrefl.
      rewrite andb_false_r. simpl. field.
    + unfold compute_avg_brightness. simpl. rewrite Qltb_irrefl.
      destruct (Qltb b a); [| destruct (Qltb a b)];
        rewrite andb_false_r; simpl; field.
  - intros values Hall. unfold compute_avg_brightness.
    pose proof (avg_scan_zero values Hall
                  (Z.to_nat (Z.of_nat (length values))) 0 0 0 0%Q (Qeq_refl 0)) as H.
    destruct (avg_scan _ _ _ _ _ _) as [[lowest highest] total]. simpl in H.
    assert (Hb : Qeq_bool total 0 = true) by now apply Qeq_bool_iff.
    rewrite Hb. simpl. rewrite H. unfold Qdiv. ring.
Qed.

(** In exact arithmetic: for n >= 3 samples all equal to a positive v, the
    indices of the lowest and of the highest sample both stay 0, the value
    subtracted is v + v, the divisor is n - 2, and the aggregate is v/255. *)
Lemma equal_samples_exact (n : nat) (v : Q) :
  (3 <= n)%nat -> (0 < v)%Q ->
  (exists total,
     avg_scan (repeat v n) n 0 0 0 0 = (0%nat, 0%nat, total) /\
     (total == inject_Z (Z.of_nat n) * v)%Q /\
     (nth 0 (repeat v n) 0 + nth 0 (repeat v n) 0 == v + v)%Q) /\
  (compute_avg_brightness (repeat v n) (Z.of_nat n) == v / 255)%Q.
Proof.
  intros Hn Hv.
  destruct (avg_scan_constant v n ltac:(lia) n 0%nat 0%Q ltac:(lia))
    as (total & Hrun & Htotal).
  assert (Hn0 : nth 0 (repeat v n) 0%Q = v) by (apply nth_repeat_lt; lia).
  split.
  - exists total. split; [exact Hrun | split].
    + rewrite Htotal. ring.
    + rewrite Hn0. reflexivity.
  - unfold compute_avg_brightness. rewrite Nat2Z.id, Hrun, Hn0.
    assert (HnQ : (3 <= inject_Z (Z.of_nat n))%Q).
    { change 3%Q with (inject_Z 3). rewrite <- Zle_Qle. lia. }
    assert (Hpos : (0 < total)%Q).
    { rewrite Htotal, Qplus_0_l.
      apply Qmult_lt_0_compat; [| assumption].
      apply Qlt_le_trans with 3%Q; [reflexivity | assumption]. }
    assert (Hb : Qeq_bool total 0 = false).
    { destruct (Qeq_bool total 0) eqn:E; [| reflexivity].
      apply Qeq_bool_iff in E. rewrite E in Hpos. discriminate. }
    assert (Hgt : (2 <? Z.of_nat n) = true) by (apply Z.ltb_lt; lia).
    rewrite Hb, Hgt. cbn [negb andb].
    unfold Zminus. rewrite inject_Z_plus, Htotal.
    change (inject_Z (- (2))) with (- (2))%Q.
    field. lra.
Qed.

Lemma SFltb_irrefl x : SFltb x x = false.
Proof.
  unfold SFltb. destruct x as [s | s | | s m e]; cbn; try reflexivity.
  - now destruct s.
  - rewrite Z.compare_refl, Pos.compare_cont_refl. now destruct s.
Qed.

Lemma ltb_irrefl (v : float) : PrimFloat.ltb v v = false.
Proof. rewrite ltb_spec. apply SFltb_irrefl. Qed.

Lemma nth_repeat_b64 (v : float) n i :
  (i < n)%nat -> nth i (repeat v n) 0%float = v.
Proof.
  revert i. induction n as [| n IH]; intros i Hi; [lia |].
  destruct i as [| i]; simpl; [reflexivity | apply IH; lia].
Qed.

Lemma avg_scan_b64_constant (v : float) (n : nat) : (0 < n)%nat ->
  forall k i total, (i + k <= n)%nat ->
  avg_scan_b64 (repeat v n) k i 0 0 total = (0%nat, 0%nat, running_sum v k total).
Proof.
  intro Hn. induction k as [| k IH]; intros i total Hik; [reflexivity |].
  cbn [avg_scan_b64 running_sum]. rewrite !nth_repeat_b64 by lia.
  rewrite ltb_irrefl. apply IH. lia.
Qed.

(** C10, the claim as stated fails: on five samples all equal to 11 the
    running total is 55 and the code returns ((55 - 22) / 255) / 3 with every
    operation rounded to binary64, which is not the binary64 value of
    11 / 255 but the next one above it. *)
Lemma equal_samples_of_11_miss_11_over_255 :
  PrimFloat.eqb (running_sum 11%float 5 0%float) 55%float = true /\
  compute_avg_brightness_b64 (repeat 11%float 5) 5
  = PrimFloat.div (PrimFloat.div 33%float 255%float) 3%float /\
  PrimFloat.eqb (compute_avg_brightness_b64 (repeat 11%float 5) 5)
    (PrimFloat.div 11%float 255%float) = false /\
  PrimFloat.ltb (PrimFloat.div 11%float 255%float)
    (compute_avg_brightness_b64 (repeat 11%float 5) 5) = true /\
  PrimFloat.eqb (PrimFloat.next_up (PrimFloat.div 11%float 255%float))
    (compute_avg_brightness_b64 (repeat 11%float 5) 5) = true.
Proof. repeat split; vm_compute; reflexivity. Qed.

(** C10, amended: for n >= 3 samples all equal to v, whatever v is, the
    indices of the lowest and of the highest sample both stay 0 and the total
    is the running sum s of n additions of v; unless s is zero, the value
    subtracted is v + v, the divisor is n - 2, and the code returns
    ((s - (v + v)) / 255) / (n - 2), every operation rounded to binary64
    (when s is zero it returns (s / 255) / n).  In exact arithmetic, for a
    positive v, this is v/255; with the rounding of binary64 it need not be
    the binary64 value of v/255. *)
Theorem compute_avg_brightness_equal_samples (n : nat) :
  (3 <= n)%nat ->
  (forall v : float,
     avg_scan_b64 (repeat v n) n 0 0 0 0%float
     = (0%nat, 0%nat, running_sum v n 0%float) /\
     nth 0 (repeat v n) 0%float = v /\
     compute_avg_brightness_b64 (repeat v n) (Z.of_nat n)
     = if PrimFloat.eqb (running_sum v n 0%float) 0%float
       then PrimFloat.div (PrimFloat.div (running_sum v n 0%float) 255%float)
              (double_of_int (Z.of_nat n))
       else PrimFloat.div
              (PrimFloat.div
                 (PrimFloat.sub (running_sum v n 0%float) (PrimFloat.add v v))
                 255%float)
              (double_of_int (Z.of_nat n - 2))) /\
  (forall q : Q, (0 < q)%Q ->
     (compute_avg_brightness (repeat q n) (Z.of_nat n) == q / 255)%Q).
Proof.
  intro Hn. split.
  - intro v.
    pose proof (avg_scan_b64_constant v n ltac:(lia) n 0%nat 0%float ltac:(lia))
      as Hrun.
    split; [exact Hrun | split; [apply nth_repeat_b64; lia |]].
    unfold compute_avg_brightness_b64. rewrite Nat2Z.id, Hrun.
    assert (Hgt : (2 <? Z.of_nat n) = true) by (apply Z.ltb_lt; lia).
    rewrite Hgt, andb_true_r.
    destruct (PrimFloat.eqb (running_sum v n 0%float) 0%float); cbn [negb];
      [reflexivity |].
    rewrite nth_repeat_b64 by lia. reflexivity.
  - intros q Hq. apply (equal_samples_exact n q Hn Hq).
Qed.

Lemma compute_avg_brightness_equal_samples_witness :
  (3 <= 5)%nat /\
  ((forall v : float,
      avg_scan_b64 (repeat v 5) 5 0 0 0 0%float
      = (0%nat, 0%nat, running_sum v 5 0%float) /\
      nth 0 (repeat v 5) 0%float = v /\
      compute_avg_brightness_b64 (repeat v 5) (Z.of_nat 5)
      = if PrimFloat.eqb (running_sum v 5 0%float) 0%float
        then PrimFloat.div (PrimFloat.div (running_sum v 5 0%float) 255%float)
               (double_of_int (Z.of_nat 5))
        else PrimFloat.div
               (PrimFloat.div
                  (PrimFloat.sub (running_sum v 5 0%float) (PrimFloat.add v v))
                  255%float)
               (double_of_int (Z.of_nat 5 - 2))) /\
   (forall q : Q, (0 < q)%Q ->
      (compute_avg_brightness (repeat q 5) (Z.of_nat 5) == q / 255)%Q)).
Proof. split; [lia | apply (compute_avg_brightness_equal_samples 5); lia]. Defined.

(** C1, the claim as stated fails: open, configuration, mapping and
    stream-on succeed and the first of three frames is captured (its sample,
    128, is stored), the second frame fails, and the request is answered with
    the error EIO instead of a brightness. *)
Lemma failed_frame_fails_the_request :
  option_map fst
    (method_captureframes lookup_video0 (capture_request 3)
       (fresh video0 second_frame_fails [gray 128]))
  = Some (Failure (-5) (Some (ErrorErrno 5))) /\
  option_map (fun x => trace (snd x))
    (method_captureframes lookup_video0 (capture_request 3)
       (fresh video0 second_frame_fails [gray 128]))
  = Some [EvLookup ""; EvOpen "/dev/video0" 3;
          EvIoctl VIDIOC_QUERYCAP 0; EvIoctl VIDIOC_S_PRIORITY 0;
          EvIoctl VIDIOC_S_FMT 0; EvIoctl VIDIOC_REQBUFS 0;
          EvIoctl VIDIOC_QUERYBUF 0; EvMmap 512 0 0x7f0000000000;
          EvCalloc 3 true; EvIoctl VIDIOC_STREAMON 0;
          EvIoctl VIDIOC_QBUF 0; EvIoctl VIDIOC_DQBUF 0;
          EvIoctl VIDIOC_QBUF (-1); EvIoctl VIDIOC_STREAMOFF 0;
          EvIoctl VIDIOC_STREAMOFF 0;
          EvClose 3; EvMunmap 0x7f0000000000 512; EvFree] /\
  option_map (fun x => brightness_values (st (snd x)))
    (method_captureframes lookup_video0 (capture_request 3)
       (fresh video0 second_frame_fails [gray 128]))
  = Some (Some [32768 # 256; 0; 0]%Q).
Proof. repeat split; vm_compute; reflexivity. Qed.

(** Teardown after a failed open: nothing is closed, unmapped or freed. *)
Lemma free_all_after_failed_open (d : device) (l : list ioctl_ret)
  (fs : list frame) (interface : String.string) (n : Z) :
  open_result d = -1 ->
  option_map (fun x => (snd (fst x), trace (snd x)))
    (capture_frames interface n 0 (fresh d l fs))
  = Some (1, [EvOpen interface (-1)]).
Proof.
  intro Hopen. unfold capture_frames, open_device, fresh. cbn. rewrite Hopen.
  reflexivity.
Qed.

(** C3, at the failing input: the device opens and is configured, the
    mapping fails, and the teardown unmaps the address MAP_FAILED although
    no mapping exists. *)
Theorem free_all_unmaps_after_failed_mmap :
  option_map (fun x => (snd (fst x), trace (snd x)))
    (capture_frames "/dev/video0" 5 0 (fresh video0_unmappable [] []))
  = Some (1,
          [EvOpen "/dev/video0" 3;
           EvIoctl VIDIOC_QUERYCAP 0; EvIoctl VIDIOC_S_PRIORITY 0;
           EvIoctl VIDIOC_S_FMT 0; EvIoctl VIDIOC_REQBUFS 0;
           EvIoctl VIDIOC_QUERYBUF 0; EvMmap 512 0 MAP_FAILED;
           EvClose 3; EvMunmap MAP_FAILED 512]).
Proof. vm_compute. reflexivity. Qed.

(** C7: a request whose num_captures is 0, negative or above 20 is rejected
    and leaves the machine untouched (no lookup, no open, no ioctl); for an
    authorized caller the rejection is the validation failure (-EINVAL, "Number
    of captures should be between 1 and 20.").  With num_captures from 1 to 20,
    so with 1 and with 20, an authorized request passes the validation: the
    device is looked up and, when found, captured from. *)
Theorem method_captureframes_validates_count
  (get_udev_device : String.string -> Z + String.string)
  (auth : bool) (video_interface : String.string) (num_captures : Z) (m : machine) :
  (num_captures <= 0 \/ 20 < num_captures ->
     exists r e,
       method_captureframes get_udev_device
         (mkMessage auth (Read video_interface num_captures)) m
       = Some (Failure r e, m) /\ r < 0 /\
       (auth = true ->
          r = - EINVAL /\
          e = Some (ErrorConst SD_BUS_ERROR_FAILED
                      "Number of captures should be between 1 and 20."))) /\
  (1 <= num_captures <= 20 ->
     method_captureframes get_udev_device
       (mkMessage true (Read video_interface num_captures)) m
     = match get_udev_device video_interface with
       | inl e => Some (Failure (- e) (Some (ErrorErrno e)),
                        log (EvLookup video_interface) m)
       | inr devnode =>
           match capture_frames devnode num_captures 0
                   (log (EvLookup video_interface) m) with
           | None => None
           | Some (val, error, m') =>
               if negb (error =? 0)
               then Some (Failure (- error) (Some (ErrorErrno error)), m')
               else Some (MethodReturn val, m')
           end
       end).
Proof.
  split.
  - intro Hbad. unfold method_captureframes. cbn [authorized body].
    assert (Hcheck : (num_captures <=? 0) || (20 <? num_captures) = true).
    { apply orb_true_iff. destruct Hbad; [left; apply Z.leb_le | right; apply Z.ltb_lt]; lia. }
    rewrite Hcheck. destruct auth; cbn [negb].
    + eexists; eexists. split; [reflexivity |]. split; [reflexivity |]. intros _. split; reflexivity.
    + eexists; eexists. split; [reflexivity |]. split; [reflexivity |]. intro H. discriminate.
  - intro Hok. unfold method_captureframes. cbn [authorized body negb].
    assert (Hcheck : (num_captures <=? 0) || (20 <? num_captures) = false).
    { apply orb_false_iff. split; [apply Z.leb_gt | apply Z.ltb_ge]; lia. }
    rewrite Hcheck. reflexivity.
Qed.

(** ** A failed frame fails the request *)

Lemma ioctl_retry_spec l :
  let '(r, errno, rest) := ioctl_retry l in
  (r = -1 /\ 0 < errno) \/ r = 0.
Proof.
  induction l as [| [| e] l IH]; cbn [ioctl_retry]; [now right | now right |].
  destruct (Z.pos e =? EINTR); [exact IH | left; split; [reflexivity | lia]].
Qed.

Lemma xioctl_spec req m :
  trace (snd (xioctl req m)) = trace m ++ [EvIoctl req (fst (xioctl req m))] /\
  ((fst (xioctl req m) = -1 /\ quit (st (snd (xioctl req m))) <> 0) \/
   (fst (xioctl req m) = 0 /\ quit (st (snd (xioctl req m))) = quit (st m))).
Proof.
  unfold xioctl. pose proof (ioctl_retry_spec (script m)) as H.
  destruct (ioctl_retry (script m)) as [[r errno] rest].
  destruct H as [[-> Hpos] | ->]; simpl.
  - split; [reflexivity | left; split; [reflexivity | lia]].
  - split; [reflexivity | right; split; reflexivity].
Qed.

Lemma frame_ioctl_failed_app tr e :
  frame_ioctl_failed (tr ++ [e]) <->
  frame_ioctl_failed tr \/ e = EvIoctl VIDIOC_QBUF (-1) \/ e = EvIoctl VIDIOC_DQBUF (-1).
Proof.
  unfold frame_ioctl_failed. rewrite !in_app_iff. simpl. intuition (subst; auto).
Qed.

Lemma xioctl_quit_recorded req m :
  quit_recorded m -> quit_recorded (snd (xioctl req m)).
Proof.
  intros Hm. destruct (xioctl_spec req m) as [Htr [[Hr Hq] | [Hr Hq]]];
    unfold quit_recorded; [intros _; exact Hq |].
  rewrite Htr, Hr, Hq, frame_ioctl_failed_app.
  intros [H | [H | H]]; [now apply Hm | discriminate | discriminate].
Qed.

Lemma xioctl_no_frame req m :
  frame_request req = false ->
  ~ frame_ioctl_failed (trace m) ->
  ~ frame_ioctl_failed (trace (snd (xioctl req m))).
Proof.
  intros Hreq Hm. destruct (xioctl_spec req m) as [Htr _].
  rewrite Htr, frame_ioctl_failed_app.
  intros [H | [H | H]]; [now apply Hm | |]; injection H as -> _; discriminate.
Qed.

Lemma log_no_frame e m :
  (forall req r, e <> EvIoctl req r) ->
  ~ frame_ioctl_failed (trace m) -> ~ frame_ioctl_failed (trace (log e m)).
Proof.
  intros He Hm. simpl. rewrite frame_ioctl_failed_app.
  intros [H | [H | H]]; [now apply Hm | |]; now apply He in H.
Qed.

Lemma open_device_no_frame interface m :
  ~ frame_ioctl_failed (trace m) ->
  ~ frame_ioctl_failed (trace (open_device interface m)).
Proof.
  intro Hm. unfold open_device.
  assert (H : ~ frame_ioctl_failed
                (trace (log (EvOpen interface (open_result (dev m)))
                          (set_device_fd (open_result (dev m)) m)))).
  { apply log_no_frame; [discriminate | exact Hm]. }
  destruct (_ =? -1); exact H.
Qed.

Lemma init_no_frame m :
  ~ frame_ioctl_failed (trace m) -> ~ frame_ioctl_failed (trace (init m)).
Proof.
  intro Hm. unfold init.
  pose proof (xioctl_no_frame VIDIOC_QUERYCAP m eq_refl Hm) as H1.
  destruct (xioctl VIDIOC_QUERYCAP m) as [r1 m1]. simpl in H1.
  destruct (r1 =? -1); [exact H1 |].
  destruct (_ =? 0); [exact H1 |]. destruct (_ =? 0); [exact H1 |].
  pose proof (xioctl_no_frame VIDIOC_S_PRIORITY m1 eq_refl H1) as H2.
  destruct (xioctl VIDIOC_S_PRIORITY m1) as [r2 m2]. simpl in H2.
  assert (H2' : ~ frame_ioctl_failed
                  (trace (if r2 =? -1 then set_quit 0 m2 else m2)))
    by (destruct (r2 =? -1); exact H2).
  pose proof (xioctl_no_frame VIDIOC_S_FMT _ eq_refl H2') as H3.
  destruct (xioctl VIDIOC_S_FMT _) as [r3 m3]. simpl in H3.
  destruct (r3 =? -1); exact H3.
Qed.

Lemma init_mmap_no_frame m :
  ~ frame_ioctl_failed (trace m) -> ~ frame_ioctl_failed (trace (init_mmap m)).
Proof.
  intro Hm. unfold init_mmap.
  pose proof (xioctl_no_frame VIDIOC_REQBUFS m eq_refl Hm) as H1.
  destruct (xioctl VIDIOC_REQBUFS m) as [r1 m1]. simpl in H1.
  destruct (r1 =? -1); [exact H1 |].
  pose proof (xioctl_no_frame VIDIOC_QUERYBUF m1 eq_refl H1) as H2.
  destruct (xioctl VIDIOC_QUERYBUF m1) as [r2 m2]. simpl in H2.
  destruct (r2 =? -1); [exact H2 |].
  assert (H3 : ~ frame_ioctl_failed
                 (trace (log (EvMmap (buf_length (dev m2)) (buf_offset (dev m2))
                                (mmap_result (dev m2)))
                           (set_buffer (mmap_result (dev m2)) m2)))).
  { apply log_no_frame; [discriminate | exact H2]. }
  destruct (_ =? MAP_FAILED); exact H3.
Qed.

Lemma stop_stream_quit_recorded m :
  quit_recorded m -> quit_recorded (stop_stream m).
Proof. apply xioctl_quit_recorded. Qed.

Lemma capture_frame_quit_recorded i m m' :
  capture_frame i m = Some m' -> quit_recorded m -> quit_recorded m'.
Proof.
  unfold capture_frame. intros Hrun Hm.
  pose proof (xioctl_quit_recorded VIDIOC_QBUF m Hm) as H1.
  destruct (xioctl VIDIOC_QBUF m) as [r1 m1]. simpl in H1.
  destruct (r1 =? -1).
  - injection Hrun as <-. now apply stop_stream_quit_recorded.
  - pose proof (xioctl_quit_recorded VIDIOC_DQBUF m1 H1) as H2.
    destruct (xioctl VIDIOC_DQBUF m1) as [r2 m2]. simpl in H2.
    destruct (r2 =? -1); [injection Hrun as <-; exact H2 |].
    unfold next_frame in Hrun. destruct (frames m2) as [| f rest];
      simpl in Hrun; destruct (brightness_values (st m2)); try discriminate;
      injection Hrun as <-; exact H2.
Qed.

Lemma capture_loop_quit_recorded n : forall i m m',
  capture_loop n i m = Some m' -> quit_recorded m -> quit_recorded m'.
Proof.
  induction n as [| n IH]; intros i m m' Hrun Hm; simpl in Hrun.
  - injection Hrun as <-. exact Hm.
  - destruct (quit (st m) =? 0); [| injection Hrun as <-; exact Hm].
    destruct (capture_frame i m) as [m1 |] eqn:Hframe; [| discriminate].
    apply (IH _ _ _ Hrun). now apply (capture_frame_quit_recorded i m).
Qed.

Lemma free_all_trace m :
  (frame_ioctl_failed (trace (free_all m)) <-> frame_ioctl_failed (trace m)) /\
  st (free_all m) = st m.
Proof.
  unfold free_all.
  set (m1 := if negb (device_fd (st m) =? -1)
             then log (EvClose (device_fd (st m))) m else m).
  assert (H1 : (frame_ioctl_failed (trace m1) <-> frame_ioctl_failed (trace m))
               /\ st m1 = st m).
  { unfold m1. destruct (negb (device_fd (st m) =? -1)); [| now split]. simpl.
    rewrite frame_ioctl_failed_app. split; [| reflexivity].
    split; [intros [H | [H | H]]; [assumption | discriminate | discriminate] | now left]. }
  set (m2 := if negb (buffer (st m1) =? NULL)
             then log (EvMunmap (buffer (st m1)) (buf_size (st m1))) m1 else m1).
  assert (H2 : (frame_ioctl_failed (trace m2) <-> frame_ioctl_failed (trace m))
               /\ st m2 = st m).
  { unfold m2. destruct (negb (buffer (st m1) =? NULL)); [| exact H1]. simpl.
    rewrite frame_ioctl_failed_app. destruct H1 as [H1 H1']. split; [| exact H1'].
    rewrite <- H1.
    split; [intros [H | [H | H]]; [assumption | discriminate | discriminate] | now left]. }
  destruct (brightness_values (st m2)); [| exact H2]. simpl.
  rewrite frame_ioctl_failed_app. destruct H2 as [H2 H2']. split; [| exact H2'].
  rewrite <- H2.
  split; [intros [H | [H | H]]; [assumption | discriminate | discriminate] | now left].
Qed.

Lemma capture_end_spec avg err m avg' err' m' :
  capture_end avg err m = (avg', err', m') ->
  avg' = avg /\
  err' = (if negb (quit (st m) =? 0) then quit (st m) else err) /\
  (frame_ioctl_failed (trace m') <-> frame_ioctl_failed (trace m)) /\
  st m' = st m.
Proof.
  unfold capture_end. intro H. injection H as <- <- <-.
  destruct (free_all_trace m) as [Ht Hs]. repeat split; try assumption; apply Ht.
Qed.

Lemma Some_eq {A : Type} (x y : A) : Some x = Some y -> x = y.
Proof. intro H. now injection H. Qed.

(** What [capture_frames] returns, in terms of the trace it leaves. *)
Lemma capture_frames_spec interface num_captures m avg err m' :
  ~ frame_ioctl_failed (trace m) ->
  capture_frames interface num_captures 0 m = Some (avg, err, m') ->
  (frame_ioctl_failed (trace m') ->
     err <> 0 /\ err = quit (st m') /\ avg = (-1)%Q) /\
  (err = 0 ->
     ~ frame_ioctl_failed (trace m') /\
     exists a, brightness_values (st m') = Some a /\
               avg = compute_avg_brightness a num_captures).
Proof.
  intros Hm Hrun. unfold capture_frames in Hrun.
  set (m0 := with_st (fun _ => zero_state) m) in Hrun.
  assert (H0 : ~ frame_ioctl_failed (trace m0)) by exact Hm.
  pose proof (open_device_no_frame interface m0 H0) as H1.
  set (m1 := open_device interface m0) in *.
  assert (Hstop : forall mx,
    ~ frame_ioctl_failed (trace mx) -> quit (st mx) <> 0 ->
    Some (capture_end (-1)%Q 0 mx) = Some (avg, err, m') ->
    (frame_ioctl_failed (trace m') ->
       err <> 0 /\ err = quit (st m') /\ avg = (-1)%Q) /\
    (err = 0 ->
       ~ frame_ioctl_failed (trace m') /\
       exists a, brightness_values (st m') = Some a /\
                 avg = compute_avg_brightness a num_captures)).
  { intros mx Hno Hq Heq. apply Some_eq in Heq.
    apply capture_end_spec in Heq. destruct Heq as (-> & -> & Ht & Hs).
    apply Z.eqb_neq in Hq. rewrite Hq. cbn [negb]. apply Z.eqb_neq in Hq.
    rewrite Hs. split; [intros _; now repeat split | intro H; contradiction]. }
  destruct (Z.eqb_spec (quit (st m1)) 0) as [Hq1 | Hq1]; [| now apply (Hstop m1)].
  pose proof (init_no_frame m1 H1) as H2. set (m2 := init m1) in *.
  destruct (Z.eqb_spec (quit (st m2)) 0) as [Hq2 | Hq2]; cbn [negb] in Hrun;
    [| now apply (Hstop m2)].
  pose proof (init_mmap_no_frame m2 H2) as H3. set (m3 := init_mmap m2) in *.
  destruct (Z.eqb_spec (quit (st m3)) 0) as [Hq3 | Hq3]; cbn [negb] in Hrun;
    [| now apply (Hstop m3)].
  assert (H4 : ~ frame_ioctl_failed (trace (allocate num_captures m3))).
  { unfold allocate. apply log_no_frame; [discriminate | exact H3]. }
  set (m4 := allocate num_captures m3) in *.
  pose proof (xioctl_no_frame VIDIOC_STREAMON m4 eq_refl H4) as H5.
  fold (start_stream m4) in H5. set (m5 := start_stream m4) in *.
  destruct (Z.eqb_spec (quit (st m5)) 0) as [Hq5 | Hq5]; cbn [negb] in Hrun;
    [| now apply (Hstop m5)].
  destruct (capture_loop (Z.to_nat num_captures) 0 m5) as [m6 |] eqn:Hloop;
    [| discriminate].
  assert (H6 : quit_recorded m6).
  { apply (capture_loop_quit_recorded _ _ _ _ Hloop). intro H. contradiction. }
  pose proof (stop_stream_quit_recorded m6 H6) as H7.
  set (m7 := stop_stream m6) in *.
  destruct (Z.eqb_spec (quit (st m7)) 0) as [Hq7 | Hq7].
  - destruct (brightness_values (st m7)) as [a |] eqn:Ha; [| discriminate].
    apply Some_eq in Hrun. apply capture_end_spec in Hrun.
    destruct Hrun as (-> & -> & Ht & Hs). rewrite Hq7. cbn [Z.eqb negb].
    assert (Hno : ~ frame_ioctl_failed (trace m')).
    { rewrite Ht. intro H. now apply H7 in H. }
    split; [intro H; contradiction |]. intros _. split; [exact Hno |].
    exists a. rewrite Hs. now split.
  - apply Some_eq in Hrun. apply capture_end_spec in Hrun.
    destruct Hrun as (-> & -> & Ht & Hs).
    apply Z.eqb_neq in Hq7. rewrite Hq7. cbn [negb]. apply Z.eqb_neq in Hq7.
    rewrite Hs. split; [intros _; now repeat split | intro H; contradiction].
Qed.

(** C1, amended: a request for which an ioctl that enqueues or dequeues a
    frame fails is answered with an error code, the errno that [xioctl] left
    in [quit], not with a brightness, also when samples had been collected
    before; a request answered with a brightness had no such failure, and the
    brightness is the aggregate of the whole sample array. *)
Theorem method_captureframes_frame_failure
  (get_udev_device : String.string -> Z + String.string)
  (msg : message) (m : machine) (rep : reply) (m' : machine) :
  ~ frame_ioctl_failed (trace m) ->
  method_captureframes get_udev_device msg m = Some (rep, m') ->
  (frame_ioctl_failed (trace m') ->
     exists e, e <> 0 /\ e = quit (st m') /\
               rep = Failure (- e) (Some (ErrorErrno e))) /\
  (forall val, rep = MethodReturn val ->
     ~ frame_ioctl_failed (trace m') /\
     exists video_interface num_captures a,
       body msg = Read video_interface num_captures /\
       brightness_values (st m') = Some a /\
       val = compute_avg_brightness a num_captures).
Proof.
  intros Hm Hrun. unfold method_captureframes in Hrun.
  destruct (authorized msg); cbn [negb] in Hrun.
  2:{ injection Hrun as <- <-. split; [intro H; contradiction | discriminate]. }
  destruct (body msg) as [r | video_interface num_captures] eqn:Hbody.
  { injection Hrun as <- <-. split; [intro H; contradiction | discriminate]. }
  destruct (_ || _).
  { injection Hrun as <- <-. split; [intro H; contradiction | discriminate]. }
  assert (Hlog : ~ frame_ioctl_failed (trace (log (EvLookup video_interface) m))).
  { apply log_no_frame; [discriminate | exact Hm]. }
  destruct (get_udev_device video_interface) as [e | devnode].
  { injection Hrun as <- <-. split; [intro H; contradiction | discriminate]. }
  destruct (capture_frames devnode num_captures 0 _) as [[[val error] m1] |] eqn:Hcap;
    [| discriminate].
  destruct (capture_frames_spec _ _ _ _ _ _ Hlog Hcap) as [Hfail Hok].
  destruct (Z.eqb_spec error 0) as [-> | Herr]; cbn [negb] in Hrun;
    injection Hrun as <- <-.
  - destruct (Hok eq_refl) as (Hno & a & Ha & Hval).
    split; [intro H; contradiction |].
    intros val' Hval'. injection Hval' as <-. split; [exact Hno |].
    exists video_interface, num_captures, a. now repeat split.
  - split; [| discriminate]. intro Hfailed.
    destruct (Hfail Hfailed) as (_ & Hquit & _). now exists error.
Qed.

Lemma method_captureframes_frame_failure_witness :
  exists rep m',
    (~ frame_ioctl_failed (trace (fresh video0 second_frame_fails [gray 128])) /\
     method_captureframes lookup_video0 (capture_request 3)
       (fresh video0 second_frame_fails [gray 128]) = Some (rep, m')) /\
    frame_ioctl_failed (trace m') /\
    exists e, e <> 0 /\ e = quit (st m') /\
              rep = Failure (- e) (Some (ErrorErrno e)).
Proof.
  assert (Hfresh : ~ frame_ioctl_failed
                     (trace (fresh video0 second_frame_fails [gray 128]))).
  { intros [[] | []]. }
  assert (Hqbuf : option_map
            (fun x => existsb
               (fun e => match e with
                         | EvIoctl VIDIOC_QBUF r => r =? -1
                         | _ => false
                         end) (trace (snd x)))
            (method_captureframes lookup_video0 (capture_request 3)
               (fresh video0 second_frame_fails [gray 128])) = Some true).
  { vm_compute. reflexivity. }
  destruct (method_captureframes lookup_video0 (capture_request 3)
              (fresh video0 second_frame_fails [gray 128]))
    as [[rep m'] |] eqn:Hrun; [| discriminate].
  assert (Hfail : frame_ioctl_failed (trace m')).
  { cbn [option_map snd] in Hqbuf. apply Some_eq in Hqbuf.
    apply existsb_exists in Hqbuf. destruct Hqbuf as (e & Hin & He).
    left. destruct e as [| | [] r | | | | |]; try discriminate.
    apply Z.eqb_eq in He. now subst r. }
  exists rep, m'. split; [split; [exact Hfresh | reflexivity] |].
  split; [exact Hfail |].
  exact (proj1 (method_captureframes_frame_failure lookup_video0 (capture_request 3)
                  (fresh video0 second_frame_fails [gray 128]) rep m' Hfresh Hrun)
           Hfail).
Defined.

Lemma method_captureframes_validates_count_witness :
  ((0 <= 0 \/ 20 < 0) /\ 1 <= 20 <= 20) /\
  (exists r e,
     method_captureframes lookup_video0 (mkMessage true (Read "" 0))
       (fresh video0 [] []) = Some (Failure r e, fresh video0 [] []) /\
     r < 0 /\
     (true = true ->
        r = - EINVAL /\
        e = Some (ErrorConst SD_BUS_ERROR_FAILED
                    "Number of captures should be between 1 and 20."))).
Proof.
  split; [split; [left; lia | lia] |].
  apply (method_captureframes_validates_count lookup_video0 true "" 0
           (fresh video0 [] [])). left. lia.
Defined.

(** ** The scan of the samples finds a minimum and a maximum *)









(** ** The brightness of one frame *)

Lemma nth_byte (buf : list Z) (i : nat) :
  Forall (fun x => 0 <= x <= 255) buf -> 0 <= nth i buf 0 <= 255.
Proof.
  intro Hall. destruct (Nat.lt_ge_cases i (length buf)) as [Hlt | Hge].
  - rewrite Forall_forall in Hall. apply Hall. now apply nth_In.
  - rewrite nth_overflow by assumption. lia.
Qed.

Lemma sum_luma_bounds (buf : list Z) :
  Forall (fun x => 0 <= x <= 255) buf ->
  forall n i brightness,
    (brightness <= sum_luma n i buf brightness
     <= brightness + 255 * inject_Z (Z.of_nat n))%Q.
Proof.
  intro Hall. induction n as [| n IH]; intros i brightness.
  - cbn [sum_luma Z.of_nat]. change (inject_Z 0) with 0%Q. lra.
  - cbn [sum_luma]. specialize (IH (i + 2)%nat (brightness + inject_Z (nth i buf 0%Z))%Q).
    destruct (nth_byte buf i Hall) as [H0 H1].
    rewrite Zle_Qle in H0, H1. change (inject_Z 0) with 0%Q in H0.
    change (inject_Z 255) with 255%Q in H1.
    rewrite Nat2Z.inj_succ. unfold Z.succ. rewrite inject_Z_plus.
    change (inject_Z 1) with 1%Q. lra.
Qed.

(** A frame of the configured format (two bytes a pixel, so at most
    [2 * width * height] bytes, each in [0, 255]) has a brightness in
    [0, 255]. *)
Theorem compute_brightness_range (size : Z) (m : machine) :
  Forall (fun x => 0 <= x <= 255) (mapped m) ->
  0 < width (st m) * height (st m) ->
  size <= 2 * (width (st m) * height (st m)) ->
  (0 <= compute_brightness size m <= 255)%Q.
Proof.
  intros Hall Hpos Hsize. unfold compute_brightness.
  pose proof (sum_luma_bounds (mapped m) Hall (Z.to_nat ((size + 1) / 2)) 0 0%Q)
    as [Hlo Hhi].
  set (s := sum_luma _ _ _ _) in *.
  assert (Hn : (inject_Z (Z.of_nat (Z.to_nat ((size + 1) / 2)))
                <= inject_Z (width (st m) * height (st m)))%Q).
  { rewrite <- Zle_Qle.
    set (wh := width (st m) * height (st m)) in *.
    assert ((size + 1) / 2 < wh + 1) by (apply Z.div_lt_upper_bound; lia).
    lia. }
  assert (Hwh : (0 < inject_Z (width (st m) * height (st m)))%Q).
  { change 0%Q with (inject_Z 0). now rewrite <- Zlt_Qlt. }
  split.
  - apply Qle_shift_div_l; [exact Hwh | lra].
  - apply Qle_shift_div_r; [exact Hwh | lra].
Qed.

Lemma compute_brightness_range_witness :
  (Forall (fun x => 0 <= x <= 255) (mapped tiny) /\
   0 < width (st tiny) * height (st tiny) /\
   8 <= 2 * (width (st tiny) * height (st tiny))) /\
  (0 <= compute_brightness 8 tiny <= 255)%Q.
Proof.
  assert (H : Forall (fun x => 0 <= x <= 255) (mapped tiny)).
  { repeat constructor; lia. }
  split; [split; [exact H | split; simpl; lia] |].
  apply (compute_brightness_range 8 tiny); [exact H | simpl; lia | simpl; lia].
Defined.

Lemma sum_luma_even (buf1 buf2 : list Z) :
  (forall k, nth (2 * k) buf1 0 = nth (2 * k) buf2 0) ->
  forall n k brightness,
    sum_luma n (2 * k) buf1 brightness = sum_luma n (2 * k) buf2 brightness.
Proof.
  intro Heven. induction n as [| n IH]; intros k brightness; [reflexivity |].
  cbn [sum_luma]. rewrite (Heven k).
  replace (2 * k + 2)%nat with (2 * S k)%nat by lia. apply IH.
Qed.

(** Only the bytes at even offsets, the luma of YUYV, count: two buffers that
    agree there have the same brightness, whatever their chroma bytes are. *)
Theorem compute_brightness_reads_luma_only (size : Z) (m1 m2 : machine) :
  st m1 = st m2 ->
  (forall k, nth (2 * k) (mapped m1) 0 = nth (2 * k) (mapped m2) 0) ->
  compute_brightness size m1 = compute_brightness size m2.
Proof.
  intros Hst Heven. unfold compute_brightness. rewrite Hst.
  now rewrite (sum_luma_even _ _ Heven _ 0%nat).
Qed.

Lemma compute_brightness_reads_luma_only_witness :
  (st tiny = st tiny_recoloured /\
   (forall k, nth (2 * k) (mapped tiny) 0 = nth (2 * k) (mapped tiny_recoloured) 0)) /\
  compute_brightness 8 tiny = compute_brightness 8 tiny_recoloured.
Proof.
  assert (H : forall k, nth (2 * k) (mapped tiny) 0
                        = nth (2 * k) (mapped tiny_recoloured) 0).
  { intros [| [| [| [| k]]]]; try reflexivity.
    replace (2 * S (S (S (S k))))%nat with (8 + 2 * k)%nat by lia.
    cbn [tiny tiny_recoloured mapped Nat.add nth]. now destruct (2 * k)%nat. }
  split; [split; [reflexivity | exact H] |].
  apply (compute_brightness_reads_luma_only 8 tiny tiny_recoloured);
    [reflexivity | exact H].
Defined.

(** ** Interrupted ioctls *)

Lemma ioctl_retry_interrupted (k : nat) (l : list ioctl_ret) :
  ioctl_retry (repeat (IoErr 4) k ++ l) = ioctl_retry l.
Proof. induction k as [| k IH]; [reflexivity | exact IH]. Qed.

Lemma ioctl_retry_errno l :
  let '(r, errno, rest) := ioctl_retry l in
  (r = -1 /\ 0 < errno /\ errno <> EINTR) \/ (r = 0 /\ errno = 0).
Proof.
  induction l as [| [| e] l IH]; cbn [ioctl_retry]; [now right | now right |].
  destruct (Z.eqb_spec (Z.pos e) EINTR) as [He | He]; [exact IH |].
  left. split; [reflexivity | split; [lia | exact He]].
Qed.

(** [xioctl] hides interrupted calls: any number of answers EINTR before the
    script changes nothing but the script consumed; when it returns -1,
    [quit] holds the errno of the call that failed, positive and not EINTR;
    when it returns 0, [quit] is as before. *)
Theorem xioctl_retries_interrupted_calls (req : request) (m : machine) (k : nat) :
  xioctl req (with_script (repeat (IoErr 4) k ++ script m) m) = xioctl req m /\
  ((fst (xioctl req m) = -1 /\ 0 < quit (st (snd (xioctl req m))) /\
    quit (st (snd (xioctl req m))) <> EINTR) \/
   (fst (xioctl req m) = 0 /\ quit (st (snd (xioctl req m))) = quit (st m))).
Proof.
  split.
  - unfold xioctl. cbn [script with_script]. rewrite ioctl_retry_interrupted.
    reflexivity.
  - unfold xioctl. pose proof (ioctl_retry_errno (script m)) as H.
    destruct (ioctl_retry (script m)) as [[r errno] rest].
    destruct H as [(-> & Hpos & Hne) | [-> ->]]; cbn.
    + left. split; [reflexivity | split; assumption].
    + right. split; reflexivity.
Qed.

(** ** Every failed ioctl but the priority request fails the capture *)

Lemma ioctl_failed_app tr e :
  ioctl_failed (tr ++ [e]) <->
  ioctl_failed tr \/ exists req, req <> VIDIOC_S_PRIORITY /\ e = EvIoctl req (-1).
Proof.
  unfold ioctl_failed. split.
  - intros (req & Hreq & Hin). apply in_app_iff in Hin.
    destruct Hin as [Hin | [Heq | []]]; [left | right]; now exists req.
  - intros [(req & Hreq & Hin) | (req & Hreq & ->)]; exists req;
      (split; [assumption |]); apply in_app_iff; [now left | right; now left].
Qed.

Lemma ioctl_failed_other tr e :
  (forall req, e <> EvIoctl req (-1)) ->
  (ioctl_failed (tr ++ [e]) <-> ioctl_failed tr).
Proof.
  intro He. rewrite ioctl_failed_app. split; [| now left].
  intros [H | (req & _ & H)]; [exact H | now apply He in H].
Qed.

Lemma xioctl_outcome req m :
  exists r m', xioctl req m = (r, m') /\
    trace m' = trace m ++ [EvIoctl req r] /\
    ((r = -1 /\ quit (st m') <> 0) \/ (r = 0 /\ quit (st m') = quit (st m))).
Proof.
  destruct (xioctl_spec req m) as [Htr Hcase].
  destruct (xioctl req m) as [r m']. now exists r, m'.
Qed.

Lemma xioctl_failure_recorded req m :
  failure_recorded m -> failure_recorded (snd (xioctl req m)).
Proof.
  intro Hm. destruct (xioctl_outcome req m) as (r & m' & -> & Htr & [[-> Hq] | [-> Hq]]);
    unfold failure_recorded; cbn [snd]; [intros _; exact Hq |].
  rewrite Htr, Hq, ioctl_failed_other by discriminate. exact Hm.
Qed.

Lemma log_failure_recorded e m :
  (forall req, e <> EvIoctl req (-1)) ->
  failure_recorded m -> failure_recorded (log e m).
Proof.
  intros He Hm. unfold failure_recorded. cbn [log trace st].
  now rewrite ioctl_failed_other.
Qed.

Lemma init_failure_recorded m :
  ~ ioctl_failed (trace m) -> failure_recorded (init m).
Proof.
  intro Hm. unfold init.
  destruct (xioctl_outcome VIDIOC_QUERYCAP m)
    as (r1 & m1 & -> & Htr1 & [[-> Hq1] | [-> Hq1]]); cbn [Z.eqb].
  { intros _. exact Hq1. }
  assert (H1 : ~ ioctl_failed (trace m1)).
  { now rewrite Htr1, ioctl_failed_other by discriminate. }
  destruct (_ =? 0); [intros _; discriminate |].
  destruct (_ =? 0); [intros _; discriminate |].
  destruct (xioctl_outcome VIDIOC_S_PRIORITY m1) as (r2 & m2 & -> & Htr2 & _).
  set (m2' := if r2 =? -1 then set_quit 0 m2 else m2).
  assert (H2 : ~ ioctl_failed (trace m2')).
  { assert (Ht : trace m2' = trace m2) by (unfold m2'; now destruct (r2 =? -1)).
    rewrite Ht, Htr2, ioctl_failed_app.
    intros [H | (req & Hreq & H)]; [contradiction |].
    injection H as H _. now apply Hreq. }
  assert (H3 : failure_recorded (snd (xioctl VIDIOC_S_FMT m2'))).
  { apply xioctl_failure_recorded. intro H. contradiction. }
  destruct (xioctl VIDIOC_S_FMT m2') as [r3 m3]. cbn [snd] in H3.
  destruct (r3 =? -1); exact H3.
Qed.

Lemma init_mmap_failure_recorded m :
  failure_recorded m -> failure_recorded (init_mmap m).
Proof.
  intro Hm. unfold init_mmap.
  pose proof (xioctl_failure_recorded VIDIOC_REQBUFS m Hm) as H1.
  destruct (xioctl VIDIOC_REQBUFS m) as [r1 m1]. cbn [snd] in H1.
  destruct (r1 =? -1); [exact H1 |].
  pose proof (xioctl_failure_recorded VIDIOC_QUERYBUF m1 H1) as H2.
  destruct (xioctl VIDIOC_QUERYBUF m1) as [r2 m2]. cbn [snd] in H2.
  destruct (r2 =? -1); [exact H2 |].
  assert (H3 : failure_recorded
                 (log (EvMmap (buf_length (dev m2)) (buf_offset (dev m2))
                         (mmap_result (dev m2)))
                    (set_buffer (mmap_result (dev m2)) m2))).
  { apply log_failure_recorded; [discriminate | exact H2]. }
  destruct (_ =? MAP_FAILED); [intros _; discriminate | exact H3].
Qed.

Lemma capture_frame_failure_recorded i m m' :
  capture_frame i m = Some m' -> failure_recorded m -> failure_recorded m'.
Proof.
  unfold capture_frame. intros Hrun Hm.
  pose proof (xioctl_failure_recorded VIDIOC_QBUF m Hm) as H1.
  destruct (xioctl VIDIOC_QBUF m) as [r1 m1]. cbn [snd] in H1.
  destruct (r1 =? -1).
  - injection Hrun as <-. now apply xioctl_failure_recorded.
  - pose proof (xioctl_failure_recorded VIDIOC_DQBUF m1 H1) as H2.
    destruct (xioctl VIDIOC_DQBUF m1) as [r2 m2]. cbn [snd] in H2.
    destruct (r2 =? -1); [injection Hrun as <-; exact H2 |].
    unfold next_frame in Hrun. destruct (frames m2) as [| f rest];
      simpl in Hrun; destruct (brightness_values (st m2)); try discriminate;
      injection Hrun as <-; exact H2.
Qed.

Lemma capture_loop_failure_recorded n : forall i m m',
  capture_loop n i m = Some m' -> failure_recorded m -> failure_recorded m'.
Proof.
  induction n as [| n IH]; intros i m m' Hrun Hm; simpl in Hrun.
  - injection Hrun as <-. exact Hm.
  - destruct (quit (st m) =? 0); [| injection Hrun as <-; exact Hm].
    destruct (capture_frame i m) as [m1 |] eqn:Hframe; [| discriminate].
    apply (IH _ _ _ Hrun). now apply (capture_frame_failure_recorded i m).
Qed.

Lemma free_all_ioctl_failed m :
  (ioctl_failed (trace (free_all m)) <-> ioctl_failed (trace m)) /\
  st (free_all m) = st m.
Proof.
  unfold free_all.
  set (m1 := if negb (device_fd (st m) =? -1)
             then log (EvClose (device_fd (st m))) m else m).
  assert (H1 : (ioctl_failed (trace m1) <-> ioctl_failed (trace m)) /\ st m1 = st m).
  { unfold m1. destruct (negb (device_fd (st m) =? -1)); [| now split].
    split; [| reflexivity]. cbn [log trace]. now apply ioctl_failed_other. }
  set (m2 := if negb (buffer (st m1) =? NULL)
             then log (EvMunmap (buffer (st m1)) (buf_size (st m1))) m1 else m1).
  assert (H2 : (ioctl_failed (trace m2) <-> ioctl_failed (trace m)) /\ st m2 = st m).
  { unfold m2. destruct (negb (buffer (st m1) =? NULL)); [| exact H1].
    destruct H1 as [H1 H1']. split; [| exact H1']. rewrite <- H1.
    cbn [log trace]. now apply ioctl_failed_other. }
  destruct (brightness_values (st m2)); [| exact H2].
  destruct H2 as [H2 H2']. split; [| exact H2']. rewrite <- H2.
  cbn [log trace]. now apply ioctl_failed_other.
Qed.

(** When an ioctl other than the priority request has failed (also the one
    that stops the stream, after every frame was captured), [capture_frames]
    returns -1 and the errno left in [quit]; when it ends with [quit] at 0,
    no such ioctl failed and the error is left as it was. *)
Theorem capture_frames_fails_on_failed_ioctl (interface : String.string)
  (num_captures err : Z) (m : machine) (avg : Q) (err' : Z) (m' : machine) :
  ~ ioctl_failed (trace m) ->
  capture_frames interface num_captures err m = Some (avg, err', m') ->
  (ioctl_failed (trace m') -> err' <> 0 /\ avg = (-1)%Q) /\
  (quit (st m') <> 0 -> err' = quit (st m') /\ avg = (-1)%Q) /\
  (quit (st m') = 0 -> err' = err /\ ~ ioctl_failed (trace m')).
Proof.
  intros Hm Hrun.
  assert (Hend : forall mx a,
    failure_recorded mx -> (quit (st mx) <> 0 -> a = (-1)%Q) ->
    Some (capture_end a err mx) = Some (avg, err', m') ->
    (ioctl_failed (trace m') -> err' <> 0 /\ avg = (-1)%Q) /\
    (quit (st m') <> 0 -> err' = quit (st m') /\ avg = (-1)%Q) /\
    (quit (st m') = 0 -> err' = err /\ ~ ioctl_failed (trace m'))).
  { intros mx a Hrec Ha Heq. apply Some_eq in Heq. unfold capture_end in Heq.
    injection Heq as <- <- <-.
    destruct (free_all_ioctl_failed mx) as [Ht Hs]. rewrite Hs, Ht.
    destruct (Z.eqb_spec (quit (st mx)) 0) as [Hq | Hq]; cbn [negb].
    - split; [intro H; now apply Hrec in H |].
      split; [intro H; contradiction |]. intros _. split; [reflexivity |].
      intro H. now apply Hrec in H.
    - split; [intros _; split; [exact Hq | now apply Ha] |].
      split; [intros _; split; [reflexivity | now apply Ha] |].
      intro H. contradiction. }
  unfold capture_frames in Hrun.
  set (m0 := with_st (fun _ => zero_state) m) in Hrun.
  assert (H1 : ~ ioctl_failed (trace (open_device interface m0))).
  { unfold open_device.
    assert (H : ~ ioctl_failed
                  (trace (log (EvOpen interface (open_result (dev m0)))
                            (set_device_fd (open_result (dev m0)) m0)))).
    { cbn [log trace]. now rewrite ioctl_failed_other by discriminate. }
    destruct (_ =? -1); exact H. }
  set (m1 := open_device interface m0) in *.
  destruct (Z.eqb_spec (quit (st m1)) 0) as [Hq1 | Hq1].
  2:{ apply (Hend m1 (-1)%Q); [intro H; contradiction | reflexivity | exact Hrun]. }
  pose proof (init_failure_recorded m1 H1) as H2. set (m2 := init m1) in *.
  destruct (Z.eqb_spec (quit (st m2)) 0) as [Hq2 | Hq2]; cbn [negb] in Hrun.
  2:{ apply (Hend m2 (-1)%Q); [exact H2 | reflexivity | exact Hrun]. }
  pose proof (init_mmap_failure_recorded m2 H2) as H3. set (m3 := init_mmap m2) in *.
  destruct (Z.eqb_spec (quit (st m3)) 0) as [Hq3 | Hq3]; cbn [negb] in Hrun.
  2:{ apply (Hend m3 (-1)%Q); [exact H3 | reflexivity | exact Hrun]. }
  assert (H4 : failure_recorded (allocate num_captures m3)).
  { unfold allocate. apply log_failure_recorded; [discriminate | exact H3]. }
  set (m4 := allocate num_captures m3) in *.
  pose proof (xioctl_failure_recorded VIDIOC_STREAMON m4 H4) as H5.
  fold (start_stream m4) in H5. set (m5 := start_stream m4) in *.
  destruct (Z.eqb_spec (quit (st m5)) 0) as [Hq5 | Hq5]; cbn [negb] in Hrun.
  2:{ apply (Hend m5 (-1)%Q); [exact H5 | reflexivity | exact Hrun]. }
  destruct (capture_loop (Z.to_nat num_captures) 0 m5) as [m6 |] eqn:Hloop;
    [| discriminate].
  pose proof (capture_loop_failure_recorded _ _ _ _ Hloop H5) as H6.
  pose proof (xioctl_failure_recorded VIDIOC_STREAMOFF m6 H6) as H7.
  fold (stop_stream m6) in H7. set (m7 := stop_stream m6) in *.
  destruct (Z.eqb_spec (quit (st m7)) 0) as [Hq7 | Hq7].
  - destruct (brightness_values (st m7)) as [a |] eqn:Ha; [| discriminate].
    apply (Hend m7 (compute_avg_brightness a num_captures));
      [exact H7 | intro H; contradiction | exact Hrun].
  - apply (Hend m7 (-1)%Q); [exact H7 | reflexivity | exact Hrun].
Qed.

Lemma capture_frames_fails_on_failed_ioctl_witness :
  exists avg err' m',
    (~ ioctl_failed (trace (fresh video0 stream_off_fails [gray 128])) /\
     capture_frames "/dev/video0" 1 0 (fresh video0 stream_off_fails [gray 128])
     = Some (avg, err', m')) /\
    ioctl_failed (trace m') /\ err' <> 0 /\ avg = (-1)%Q.
Proof.
  assert (Hfresh : ~ ioctl_failed (trace (fresh video0 stream_off_fails [gray 128]))).
  { intros (req & _ & []). }
  assert (Hoff : option_map
            (fun x => existsb
               (fun e => match e with
                         | EvIoctl VIDIOC_STREAMOFF r => r =? -1
                         | _ => false
                         end) (trace (snd x)))
            (capture_frames "/dev/video0" 1 0
               (fresh video0 stream_off_fails [gray 128])) = Some true).
  { vm_compute. reflexivity. }
  destruct (capture_frames "/dev/video0" 1 0
              (fresh video0 stream_off_fails [gray 128]))
    as [[[avg err'] m'] |] eqn:Hrun; [| discriminate].
  assert (Hfail : ioctl_failed (trace m')).
  { cbn [option_map snd] in Hoff. apply Some_eq in Hoff.
    apply existsb_exists in Hoff. destruct Hoff as (e & Hin & He).
    exists VIDIOC_STREAMOFF. split; [discriminate |].
    destruct e as [| | [] r | | | | |]; try discriminate.
    apply Z.eqb_eq in He. now subst r. }
  exists avg, err', m'. split; [split; [exact Hfresh | reflexivity] |].
  split; [exact Hfail |].
  exact (proj1 (capture_frames_fails_on_failed_ioctl "/dev/video0" 1 0
                  (fresh video0 stream_off_fails [gray 128]) avg err' m' Hfresh Hrun)
           Hfail).
Defined.

(** ** A capture in which nothing fails *)

Lemma all_ok_tl l : all_ok l -> all_ok (tl l).
Proof. intro H. destruct H; [constructor | assumption]. Qed.

Lemma ioctl_retry_all_ok l : all_ok l -> ioctl_retry l = (0, 0, tl l).
Proof. intro H. destruct H as [| r l Hr _]; [reflexivity | now subst r]. Qed.

Lemma xioctl_ok req s d l fs mp tr :
  all_ok l ->
  xioctl req (mkMachine s d l fs mp tr)
  = (0, mkMachine s d (tl l) fs mp (tr ++ [EvIoctl req 0])).
Proof.
  intro H. unfold xioctl. cbn [script]. rewrite (ioctl_retry_all_ok l H).
  reflexivity.
Qed.

Lemma store_app (done : list Q) (v x : Q) (t : list Q) :
  store (length done) v (done ++ x :: t) = done ++ v :: t.
Proof. induction done as [| y done IH]; [reflexivity | simpl; now rewrite IH]. Qed.

Lemma capture_loop_ok (d : device) (fd bs buf : Z) : forall k done l fs mp tr,
  all_ok l -> (k <= length fs)%nat ->
  exists l' mp',
    all_ok l' /\
    capture_loop k (length done)
      (mkMachine (mkState 0 (fmt_width d) (fmt_height d) fd bs
                    (Some (done ++ repeat 0%Q k)) buf) d l fs mp tr)
    = Some (mkMachine (mkState 0 (fmt_width d) (fmt_height d) fd bs
                         (Some (done ++ map (frame_brightness d) (firstn k fs))) buf)
              d l' (skipn k fs) mp'
              (tr ++ concat (repeat [EvIoctl VIDIOC_QBUF 0; EvIoctl VIDIOC_DQBUF 0] k))).
Proof.
  induction k as [| k IH]; intros done l fs mp tr Hl Hk.
  - exists l, mp. split; [exact Hl |]. cbn [capture_loop repeat firstn map concat skipn].
    now rewrite !app_nil_r.
  - destruct fs as [| f fs]; [simpl in Hk; lia |].
    cbn [capture_loop st quit Z.eqb]. unfold capture_frame.
    rewrite (xioctl_ok VIDIOC_QBUF _ _ _ _ _ _ Hl). cbn [Z.eqb].
    rewrite (xioctl_ok VIDIOC_DQBUF _ _ _ _ _ _ (all_ok_tl _ Hl)). cbn [Z.eqb].
    cbn [next_frame frames st dev script trace brightness_values pixels bytesused repeat].
    rewrite store_app.
    destruct (IH (done ++ [frame_brightness d f]) (tl (tl l)) fs (pixels f)
                ((tr ++ [EvIoctl VIDIOC_QBUF 0]) ++ [EvIoctl VIDIOC_DQBUF 0])
                (all_ok_tl _ (all_ok_tl _ Hl)) ltac:(simpl in Hk; lia))
      as (l' & mp' & Hl' & Hrun).
    exists l', mp'. split; [exact Hl' |].
    rewrite length_app, Nat.add_1_r in Hrun. rewrite <- !app_assoc in Hrun.
    cbn [app] in Hrun. cbn [firstn map skipn repeat concat app].
    rewrite <- !app_assoc. cbn [app].
    rewrite <- Hrun. reflexivity.
Qed.

Ltac run_setters :=
  unfold set_quit, set_size, set_device_fd, set_buf_size, set_brightness_values,
    set_buffer, log, with_script, with_st;
  cbn [st dev script frames mapped trace quit width height device_fd buf_size
       brightness_values buffer].

Lemma open_device_ok interface q w h fd0 bs bv buf d l fs mp tr :
  open_result d <> -1 ->
  open_device interface (mkMachine (mkState q w h fd0 bs bv buf) d l fs mp tr)
  = mkMachine (mkState q w h (open_result d) bs bv buf) d l fs mp
      (tr ++ [EvOpen interface (open_result d)]).
Proof.
  intro Hopen. apply Z.eqb_neq in Hopen. unfold open_device. run_setters.
  now rewrite Hopen.
Qed.

Lemma xioctl_priority q w h fd bs bv buf d prio l fs mp tr :
  prio <> IoErr 4 ->
  xioctl VIDIOC_S_PRIORITY
    (mkMachine (mkState q w h fd bs bv buf) d (prio :: l) fs mp tr)
  = (ioctl_result prio,
     mkMachine (mkState (match prio with IoOk => q | IoErr e => Z.pos e end)
                  w h fd bs bv buf) d l fs mp
       (tr ++ [EvIoctl VIDIOC_S_PRIORITY (ioctl_result prio)])).
Proof.
  intro Hprio. destruct prio as [| e]; [reflexivity |].
  unfold xioctl. cbn [script ioctl_retry].
  assert (He : (Z.pos e =? EINTR) = false).
  { apply Z.eqb_neq. intro H. apply Hprio. f_equal. unfold EINTR in H. lia. }
  rewrite He. reflexivity.
Qed.

Lemma init_ok w h fd bs bv buf d prio l fs mp tr :
  Z.land (capabilities d) V4L2_CAP_VIDEO_CAPTURE <> 0 ->
  Z.land (capabilities d) V4L2_CAP_STREAMING <> 0 ->
  prio <> IoErr 4 -> all_ok l ->
  init (mkMachine (mkState 0 w h fd bs bv buf) d (IoOk :: prio :: l) fs mp tr)
  = mkMachine (mkState 0 (fmt_width d) (fmt_height d) fd bs bv buf) d (tl l) fs mp
      (tr ++ [EvIoctl VIDIOC_QUERYCAP 0;
              EvIoctl VIDIOC_S_PRIORITY (ioctl_result prio);
              EvIoctl VIDIOC_S_FMT 0]).
Proof.
  intros Hcap Hstr Hprio Hl. apply Z.eqb_neq in Hcap, Hstr. unfold init.
  unfold xioctl at 1. cbn [script ioctl_retry Z.eqb]. run_setters.
  rewrite Hcap, Hstr, (xioctl_priority _ _ _ _ _ _ _ _ _ _ _ _ _ Hprio).
  cbv beta iota.
  destruct prio as [| e]; cbn [ioctl_result Z.eqb Pos.eqb]; run_setters;
    rewrite (xioctl_ok VIDIOC_S_FMT _ _ _ _ _ _ Hl); cbn [Z.eqb]; run_setters;
    now rewrite <- !app_assoc.
Qed.

Lemma init_mmap_ok q w h fd bs bv buf d l fs mp tr :
  mmap_result d <> MAP_FAILED -> all_ok l ->
  init_mmap (mkMachine (mkState q w h fd bs bv buf) d l fs mp tr)
  = mkMachine (mkState q w h fd (buf_length d) bv (mmap_result d)) d (tl (tl l))
      fs mp
      (tr ++ [EvIoctl VIDIOC_REQBUFS 0; EvIoctl VIDIOC_QUERYBUF 0;
              EvMmap (buf_length d) (buf_offset d) (mmap_result d)]).
Proof.
  intros Hmap Hl. apply Z.eqb_neq in Hmap. unfold init_mmap.
  rewrite (xioctl_ok VIDIOC_REQBUFS _ _ _ _ _ _ Hl). cbn [Z.eqb].
  rewrite (xioctl_ok VIDIOC_QUERYBUF _ _ _ _ _ _ (all_ok_tl _ Hl)).
  cbn [Z.eqb]. run_setters. rewrite Hmap. now rewrite <- !app_assoc.
Qed.

Lemma free_all_ok q w h fd bs a buf d l fs mp tr :
  fd <> -1 -> buf <> NULL ->
  free_all (mkMachine (mkState q w h fd bs (Some a) buf) d l fs mp tr)
  = mkMachine (mkState q w h fd bs (Some a) buf) d l fs mp
      (tr ++ [EvClose fd; EvMunmap buf bs; EvFree]).
Proof.
  intros Hfd Hbuf. apply Z.eqb_neq in Hfd, Hbuf. unfold free_all.
  run_setters. rewrite Hfd. cbn [negb]. run_setters. rewrite Hbuf. cbn [negb].
  run_setters. now rewrite <- !app_assoc.
Qed.

(** When the device opens, has both capabilities and maps, the array is
    allocated, every ioctl but possibly the priority request succeeds and the
    driver delivers the frames, [capture_frames] returns the aggregate of the
    brightness of the first [num_captures] frames and leaves the error as it
    was; a failed priority request is passed over.  The calls it makes are
    the setup, one enqueue and one dequeue a frame, the stream-off and the
    release of the descriptor, of the mapping and of the array. *)
Theorem capture_frames_succeeds (d : device) (prio : ioctl_ret)
  (rest : list ioctl_ret) (fs : list frame) (interface : String.string)
  (num_captures err : Z) :
  open_result d <> -1 ->
  Z.land (capabilities d) V4L2_CAP_VIDEO_CAPTURE <> 0 ->
  Z.land (capabilities d) V4L2_CAP_STREAMING <> 0 ->
  mmap_result d <> MAP_FAILED -> mmap_result d <> NULL -> calloc_ok d = true ->
  prio <> IoErr 4 -> all_ok rest ->
  1 <= num_captures <= Z.of_nat (length fs) ->
  exists m',
    capture_frames interface num_captures err (fresh d (IoOk :: prio :: rest) fs)
    = Some (compute_avg_brightness
              (map (frame_brightness d) (firstn (Z.to_nat num_captures) fs))
              num_captures, err, m') /\
    trace m'
    = [EvOpen interface (open_result d); EvIoctl VIDIOC_QUERYCAP 0;
       EvIoctl VIDIOC_S_PRIORITY (ioctl_result prio);
       EvIoctl VIDIOC_S_FMT 0; EvIoctl VIDIOC_REQBUFS 0;
       EvIoctl VIDIOC_QUERYBUF 0;
       EvMmap (buf_length d) (buf_offset d) (mmap_result d);
       EvCalloc num_captures true; EvIoctl VIDIOC_STREAMON 0]
      ++ concat (repeat [EvIoctl VIDIOC_QBUF 0; EvIoctl VIDIOC_DQBUF 0]
                   (Z.to_nat num_captures))
      ++ [EvIoctl VIDIOC_STREAMOFF 0; EvClose (open_result d);
          EvMunmap (mmap_result d) (buf_length d); EvFree] /\
    frames m' = skipn (Z.to_nat num_captures) fs.
Proof.
  intros Hopen Hcap Hstr Hmap Hnull Hcalloc Hprio Hrest Hn.
  unfold capture_frames, fresh, zero_state. cbv zeta. run_setters.
  rewrite (open_device_ok _ _ _ _ _ _ _ _ _ _ _ _ _ Hopen).
  cbn [st quit Z.eqb app].
  rewrite (init_ok _ _ _ _ _ _ _ _ _ _ _ _ Hcap Hstr Hprio Hrest).
  cbn [st quit Z.eqb negb app].
  rewrite (init_mmap_ok _ _ _ _ _ _ _ _ _ _ _ _ Hmap (all_ok_tl _ Hrest)).
  cbn [st quit Z.eqb negb app].
  unfold allocate, start_stream. run_setters. rewrite Hcalloc.
  rewrite (xioctl_ok VIDIOC_STREAMON _ _ _ _ _ _
             (all_ok_tl _ (all_ok_tl _ (all_ok_tl _ Hrest)))).
  cbn [snd st quit Z.eqb negb app].
  destruct (capture_loop_ok d (open_result d) (buf_length d) (mmap_result d)
              (Z.to_nat num_captures) [] (tl (tl (tl (tl rest)))) fs []
              ([EvOpen interface (open_result d); EvIoctl VIDIOC_QUERYCAP 0;
                EvIoctl VIDIOC_S_PRIORITY (ioctl_result prio);
                EvIoctl VIDIOC_S_FMT 0; EvIoctl VIDIOC_REQBUFS 0;
                EvIoctl VIDIOC_QUERYBUF 0;
                EvMmap (buf_length d) (buf_offset d) (mmap_result d);
                EvCalloc num_captures true; EvIoctl VIDIOC_STREAMON 0])
              (all_ok_tl _ (all_ok_tl _ (all_ok_tl _ (all_ok_tl _ Hrest))))
              ltac:(lia)) as (l' & mp' & Hl' & Hloop).
  cbn [length app] in Hloop. rewrite Hloop.
  unfold stop_stream. rewrite (xioctl_ok VIDIOC_STREAMOFF _ _ _ _ _ _ Hl').
  cbn [snd st quit Z.eqb brightness_values].
  unfold capture_end. cbn [st quit Z.eqb negb].
  rewrite (free_all_ok _ _ _ _ _ _ _ _ _ _ _ _ Hopen Hnull).
  eexists. split; [reflexivity |]. cbn [trace frames].
  split; [| reflexivity].
  rewrite <- !app_assoc. reflexivity.
Qed.

Lemma capture_frames_succeeds_witness :
  (open_result video0 <> -1 /\
   Z.land (capabilities video0) V4L2_CAP_VIDEO_CAPTURE <> 0 /\
   Z.land (capabilities video0) V4L2_CAP_STREAMING <> 0 /\
   mmap_result video0 <> MAP_FAILED /\ mmap_result video0 <> NULL /\
   calloc_ok video0 = true /\ IoErr 25 <> IoErr 4 /\ all_ok [] /\
   1 <= 2 <= Z.of_nat (length [gray 128; gray 64])) /\
  exists m',
    capture_frames "/dev/video0" 2 0
      (fresh video0 [IoOk; IoErr 25] [gray 128; gray 64])
    = Some (compute_avg_brightness
              (map (frame_brightness video0)
                 (firstn (Z.to_nat 2) [gray 128; gray 64])) 2, 0, m') /\
    trace m'
    = [EvOpen "/dev/video0" (open_result video0); EvIoctl VIDIOC_QUERYCAP 0;
       EvIoctl VIDIOC_S_PRIORITY (ioctl_result (IoErr 25));
       EvIoctl VIDIOC_S_FMT 0; EvIoctl VIDIOC_REQBUFS 0;
       EvIoctl VIDIOC_QUERYBUF 0;
       EvMmap (buf_length video0) (buf_offset video0) (mmap_result video0);
       EvCalloc 2 true; EvIoctl VIDIOC_STREAMON 0]
      ++ concat (repeat [EvIoctl VIDIOC_QBUF 0; EvIoctl VIDIOC_DQBUF 0]
                   (Z.to_nat 2))
      ++ [EvIoctl VIDIOC_STREAMOFF 0; EvClose (open_result video0);
          EvMunmap (mmap_result video0) (buf_length video0); EvFree] /\
    frames m' = skipn (Z.to_nat 2) [gray 128; gray 64].
Proof.
  assert (H1 : open_result video0 <> -1) by discriminate.
  assert (H2 : Z.land (capabilities video0) V4L2_CAP_VIDEO_CAPTURE <> 0)
    by discriminate.
  assert (H3 : Z.land (capabilities video0) V4L2_CAP_STREAMING <> 0)
    by discriminate.
  assert (H4 : mmap_result video0 <> MAP_FAILED) by discriminate.
  assert (H5 : mmap_result video0 <> NULL) by discriminate.
  assert (H6 : IoErr 25 <> IoErr 4) by discriminate.
  assert (H7 : all_ok []) by constructor.
  assert (H8 : 1 <= 2 <= Z.of_nat (length [gray 128; gray 64])) by (simpl; lia).
  split; [repeat (split; [assumption || reflexivity |]); exact H8 |].
  exact (capture_frames_succeeds video0 (IoErr 25) [] [gray 128; gray 64]
           "/dev/video0" 2 0 H1 H2 H3 H4 H5 eq_refl H6 H7 H8).
Defined.

(** ** A device that cannot be used *)

(** When the device does not open, or lacks the capture or the streaming
    capability, [capture_frames] returns -1 with the error 1; nothing is
    configured, mapped or allocated, and the descriptor is closed when there
    is one. *)
Theorem capture_frames_rejects_unfit_device (d : device) (l : list ioctl_ret)
  (fs : list frame) (interface : String.string) (num_captures err : Z) :
  open_result d = -1 \/
  Z.land (capabilities d) V4L2_CAP_VIDEO_CAPTURE = 0 \/
  Z.land (capabilities d) V4L2_CAP_STREAMING = 0 ->
  exists m',
    capture_frames interface num_captures err (fresh d (IoOk :: l) fs)
    = Some ((-1)%Q, 1, m') /\
    trace m'
    = (if open_result d =? -1 then [EvOpen interface (-1)]
       else [EvOpen interface (open_result d); EvIoctl VIDIOC_QUERYCAP 0;
             EvClose (open_result d)]) /\
    brightness_values (st m') = None /\ buffer (st m') = NULL.
Proof.
  intro Hunfit. unfold capture_frames, fresh, zero_state. cbv zeta. run_setters.
  destruct (Z.eqb_spec (open_result d) (-1)) as [Hopen | Hopen].
  - unfold open_device. run_setters. rewrite Hopen. cbn [Z.eqb Pos.eqb].
    run_setters. cbn [Z.eqb]. unfold capture_end, free_all. run_setters.
    cbn [Z.eqb Pos.eqb negb NULL]. run_setters.
    eexists. split; [reflexivity |]. now repeat split.
  - destruct Hunfit as [H | Hcaps]; [contradiction |].
    rewrite (open_device_ok _ _ _ _ _ _ _ _ _ _ _ _ _ Hopen).
    cbn [st quit Z.eqb app].
    assert (Hinit : forall tr,
      init (mkMachine (mkState 0 0 0 (open_result d) 0 None NULL) d (IoOk :: l) fs [] tr)
      = mkMachine (mkState 1 0 0 (open_result d) 0 None NULL) d l fs []
          (tr ++ [EvIoctl VIDIOC_QUERYCAP 0])).
    { intro tr. unfold init. unfold xioctl at 1. cbn [script ioctl_retry Z.eqb].
      run_setters.
      destruct Hcaps as [H | H]; rewrite H; cbn [Z.eqb]; [reflexivity |].
      now destruct (_ =? 0). }
    rewrite Hinit. cbn [st quit Z.eqb negb app].
    unfold capture_end, free_all. run_setters. cbn [Z.eqb negb].
    apply Z.eqb_neq in Hopen. rewrite Hopen. cbn [negb]. run_setters.
    cbn [Z.eqb negb NULL]. run_setters.
    eexists. split; [reflexivity |]. now repeat split.
Qed.

Lemma capture_frames_rejects_unfit_device_witness :
  (open_result tuner0 = -1 \/
   Z.land (capabilities tuner0)
     V4L2_CAP_VIDEO_CAPTURE = 0 \/
   Z.land (capabilities tuner0)
     V4L2_CAP_STREAMING = 0) /\
  exists m',
    capture_frames "/dev/video0" 5 0
      (fresh tuner0 [IoOk] [])
    = Some ((-1)%Q, 1, m') /\
    trace m'
    = (if open_result tuner0 =? -1
       then [EvOpen "/dev/video0" (-1)]
       else [EvOpen "/dev/video0"
               (open_result tuner0);
             EvIoctl VIDIOC_QUERYCAP 0;
             EvClose (open_result
                        tuner0)]) /\
    brightness_values (st m') = None /\ buffer (st m') = NULL.
Proof.
  assert (H : open_result tuner0 = -1 \/
   Z.land (capabilities tuner0)
     V4L2_CAP_VIDEO_CAPTURE = 0 \/
   Z.land (capabilities tuner0)
     V4L2_CAP_STREAMING = 0) by (right; left; reflexivity).
  split; [exact H |].
  exact (capture_frames_rejects_unfit_device
           tuner0 [] []
           "/dev/video0" 5 0 H).
Defined.

End CameraFacts.

Module GammaFacts.
Import Gamma ExpBound Lra.
Local Open Scope R_scope.

(** ** Soundness of the bounds of the exponential *)

Lemma IZR_scale_pos : 0 < IZR scale.
Proof. apply IZR_lt. reflexivity. Qed.

Lemma IZR_div_le (a b : Z) : (0 < b)%Z -> IZR (a / b) <= IZR a / IZR b.
Proof.
  intro Hb. assert (Hb' : 0 < IZR b) by now apply IZR_lt.
  apply Rmult_le_reg_r with (IZR b); [assumption|].
  unfold Rdiv. rewrite Rmult_assoc, Rinv_l, Rmult_1_r by lra.
  rewrite <- mult_IZR. apply IZR_le.
  rewrite Z.mul_comm. now apply Z.mul_div_le.
Qed.

Lemma sq_down_nonneg y : (0 <= sq_down y)%Z.
Proof. unfold sq_down. apply Z.div_pos; [nia | reflexivity]. Qed.

Lemma sq_down_sound y u :
  (0 <= y)%Z -> IZR y / IZR scale <= u ->
  IZR (sq_down y) / IZR scale <= u * u.
Proof.
  intros Hy Hu. pose proof IZR_scale_pos as Hs.
  assert (H0 : 0 <= IZR y / IZR scale).
  { apply Rmult_le_pos; [now apply IZR_le | left; now apply Rinv_0_lt_compat]. }
  apply Rle_trans with ((IZR y / IZR scale) * (IZR y / IZR scale)); [| nra].
  unfold sq_down.
  pose proof (IZR_div_le (y * y) scale eq_refl) as Hd.
  rewrite mult_IZR in Hd.
  apply Rle_trans with (IZR y * IZR y / IZR scale / IZR scale).
  - apply Rmult_le_compat_r; [left; now apply Rinv_0_lt_compat | exact Hd].
  - right. field. lra.
Qed.

Lemma sq_iter_sound k : forall y x,
  (0 <= y)%Z -> IZR y / IZR scale <= exp (x / 2 ^ k) ->
  IZR (sq_iter k y) / IZR scale <= exp x.
Proof.
  induction k as [|k IH]; intros y x Hy Hu; simpl in *.
  - now replace (x / 1) with x in Hu by field.
  - apply IH; [apply sq_down_nonneg|].
    replace (x / 2 ^ k) with (x / (2 * 2 ^ k) + x / (2 * 2 ^ k)).
    + rewrite exp_plus. now apply sq_down_sound.
    + assert (2 ^ k <> 0) by (apply pow_nonzero; lra). field. assumption.
Qed.

Lemma exp_lb_sound p q k :
  (0 < q)%Z -> (0 <= q * 2 ^ Z.of_nat k + p)%Z ->
  IZR (exp_lb p q k) / IZR scale <= exp (IZR p / IZR q).
Proof.
  intros Hq Hp. unfold exp_lb.
  set (d := (q * 2 ^ Z.of_nat k)%Z) in *.
  assert (Hd : (0 < d)%Z) by (unfold d; apply Z.mul_pos_pos; [assumption | apply Z.pow_pos_nonneg; lia]).
  pose proof IZR_scale_pos as Hs.
  assert (HdR : 0 < IZR d) by now apply IZR_lt.
  assert (HqR : 0 < IZR q) by now apply IZR_lt.
  assert (H2k : IZR d = IZR q * 2 ^ k).
  { unfold d. rewrite mult_IZR. f_equal.
    now rewrite <- pow_IZR. }
  assert (H2pos : 0 < 2 ^ k) by (apply pow_lt; lra).
  apply sq_iter_sound.
  - apply Z.div_pos; [| assumption]. apply Z.mul_nonneg_nonneg; [discriminate | assumption].
  - apply Rle_trans with (1 + IZR p / IZR q / 2 ^ k); [| apply exp_ineq1_le].
    pose proof (IZR_div_le (scale * (d + p)) d Hd) as H.
    rewrite mult_IZR, plus_IZR in H.
    apply Rmult_le_reg_r with (IZR scale); [assumption|].
    unfold Rdiv at 1. rewrite Rmult_assoc, Rinv_l, Rmult_1_r by lra.
    eapply Rle_trans; [exact H|]. right. rewrite H2k. field. lra.
Qed.

Lemma ln_le_of_exp_lb x p q k :
  (0 < q)%Z -> (0 <= q * 2 ^ Z.of_nat k + p)%Z ->
  0 < x -> x <= IZR (exp_lb p q k) / IZR scale ->
  ln x <= IZR p / IZR q.
Proof.
  intros Hq Hp Hx Hle.
  pose proof (exp_lb_sound p q k Hq Hp) as H.
  rewrite <- (ln_exp (IZR p / IZR q)).
  destruct (Rle_lt_or_eq_dec _ _ (Rle_trans _ _ _ Hle H)) as [Hlt | Heq].
  - left. now apply ln_increasing.
  - right. now rewrite Heq.
Qed.

Lemma ln_ge_of_exp_lb x p q k :
  (0 < q)%Z -> (0 <= q * 2 ^ Z.of_nat k - p)%Z ->
  0 < x -> 1 <= x * (IZR (exp_lb (- p) q k) / IZR scale) ->
  IZR p / IZR q <= ln x.
Proof.
  intros Hq Hp Hx Hle.
  pose proof (exp_lb_sound (- p) q k Hq) as H.
  rewrite opp_IZR in H.
  replace (- IZR p / IZR q) with (- (IZR p / IZR q)) in H by (unfold Rdiv; ring).
  rewrite exp_Ropp in H. specialize (H ltac:(lia)).
  pose proof (exp_pos (IZR p / IZR q)) as He.
  assert (Hex : exp (IZR p / IZR q) <= x).
  { apply Rmult_le_reg_r with (/ exp (IZR p / IZR q)).
    - now apply Rinv_0_lt_compat.
    - rewrite Rinv_r by lra. nra. }
  rewrite <- (ln_exp (IZR p / IZR q)).
  destruct (Rle_lt_or_eq_dec _ _ Hex) as [Hlt | Heq].
  - left. now apply ln_increasing.
  - right. now rewrite Heq.
Qed.

(** [ln_upper n d k] proves [ln x <= c] from [x <= exp (n / d)] and
    [n / d <= c]; [ln_lower n d k] proves [c <= ln x] likewise; [k] is the
    number of squarings. *)
Ltac eval_exp_lb :=
  match goal with
  | |- context [exp_lb ?p ?q ?k] =>
      let v := eval vm_compute in (exp_lb p q k) in
      change (exp_lb p q k) with v
  end;
  let s := eval vm_compute in scale in change scale with s.

Ltac ln_upper n d k :=
  apply Rle_trans with (IZR n / IZR d); [| lra];
  apply ln_le_of_exp_lb with k; [lia | lia | lra | eval_exp_lb; lra].

Ltac ln_lower n d k :=
  apply Rle_trans with (IZR n / IZR d); [lra |];
  apply ln_ge_of_exp_lb with k; [lia | lia | lra | eval_exp_lb; lra].

(** ** Conversion of a double to [unsigned short] *)

Lemma Int_part_le x y : x <= y -> (Int_part x <= Int_part y)%Z.
Proof.
  intro H. destruct (base_Int_part x) as [Hx1 Hx2], (base_Int_part y) as [Hy1 Hy2].
  apply Z.lt_succ_r, lt_IZR. rewrite succ_IZR. lra.
Qed.

Lemma Int_part_IZR n : Int_part (IZR n) = n.
Proof. symmetry. apply Int_part_spec. lra. Qed.

Lemma Int_part_nonneg x : 0 <= x -> (0 <= Int_part x)%Z.
Proof. intro H. rewrite <- (Int_part_IZR 0). now apply Int_part_le. Qed.

Lemma trunc_nonneg x : -1 < x -> (0 <= trunc x)%Z.
Proof.
  intro H. unfold trunc. destruct (Rle_dec 0 x) as [H0 | H0].
  - now apply Int_part_nonneg.
  - assert (Hz : Int_part (- x) = 0%Z) by (symmetry; apply Int_part_spec; simpl; lra).
    rewrite Hz. reflexivity.
Qed.

Lemma trunc_le x y : -1 < x -> x <= y -> (trunc x <= trunc y)%Z.
Proof.
  intros Hx Hxy. unfold trunc at 1. destruct (Rle_dec 0 x) as [H0 | H0].
  - unfold trunc. destruct (Rle_dec 0 y); [now apply Int_part_le | lra].
  - assert (Hz : Int_part (- x) = 0%Z) by (symmetry; apply Int_part_spec; simpl; lra).
    rewrite Hz. apply trunc_nonneg. lra.
Qed.

Lemma trunc_IZR n : (0 <= n)%Z -> trunc (IZR n) = n.
Proof.
  intro H. unfold trunc. destruct (Rle_dec 0 (IZR n)) as [_ | Hn].
  - apply Int_part_IZR.
  - exfalso. apply Hn. now apply IZR_le.
Qed.

Lemma trunc_between x n : (0 <= n)%Z -> IZR n <= x < IZR n + 1 -> trunc x = n.
Proof.
  intros Hn Hx. assert (0 <= IZR n) by now apply IZR_le.
  unfold trunc. destruct (Rle_dec 0 x); [| lra].
  symmetry. apply Int_part_spec. lra.
Qed.

Lemma clamp_255_range x : -1 < x -> (0 <= clamp x 255 <= 255)%Z.
Proof.
  intro Hx. unfold clamp, to_ushort. destruct (Rgt_dec x 255) as [Hgt | Hle].
  - rewrite trunc_IZR by lia. vm_compute. split; discriminate.
  - assert (H1 : (0 <= trunc x)%Z) by now apply trunc_nonneg.
    assert (H2 : (trunc x <= 255)%Z).
    { rewrite <- (trunc_IZR 255) by lia. apply trunc_le; lra. }
    rewrite Z.mod_small; lia.
Qed.

Lemma clamp_255_eq x : -1 < x -> clamp x 255 = trunc (Rmin x 255).
Proof.
  intro Hx. unfold clamp, to_ushort, Rmin.
  destruct (Rgt_dec x 255) as [Hgt | Hle]; destruct (Rle_dec x 255) as [Hle' | Hgt']; try lra.
  - rewrite trunc_IZR by lia. reflexivity.
  - assert (H1 : (0 <= trunc x)%Z) by now apply trunc_nonneg.
    assert (H2 : (trunc x <= 255)%Z).
    { rewrite <- (trunc_IZR 255) by lia. apply trunc_le; lra. }
    rewrite Z.mod_small; lia.
Qed.

Lemma clamp_255_le x y : -1 < x -> x <= y -> (clamp x 255 <= clamp y 255)%Z.
Proof.
  intros Hx Hxy. rewrite !clamp_255_eq by lra.
  apply trunc_le.
  - unfold Rmin. destruct (Rle_dec x 255); lra.
  - apply Rle_min_compat_r. exact Hxy.
Qed.

Lemma clamp_255_between x n :
  (0 <= n < 255)%Z -> IZR n <= x < IZR n + 1 -> clamp x 255 = n.
Proof.
  intros Hn Hx.
  assert (IZR n + 1 <= 255).
  { rewrite <- (plus_IZR n 1). apply IZR_le. lia. }
  assert (0 <= IZR n) by (apply IZR_le; lia).
  rewrite clamp_255_eq by lra. rewrite Rmin_left by lra.
  apply trunc_between; [lia | assumption].
Qed.

(** ** The channels, branch by branch *)

Lemma get_red_low t : (t <= 6500)%Z -> get_red t = 255%Z.
Proof. intro H. unfold get_red. apply Z.leb_le in H. now rewrite H. Qed.

Lemma get_red_high t :
  (6500 < t)%Z -> get_red t = clamp (red_curve (IZR t / 100 - 55)) 255.
Proof. intro H. unfold get_red. apply Z.leb_gt in H. now rewrite H. Qed.

Lemma get_green_low t :
  (t <= 6500)%Z -> get_green t = clamp (green_low_curve (IZR t / 100 - 2)) 255.
Proof. intro H. unfold get_green. apply Z.leb_le in H. now rewrite H. Qed.

Lemma get_green_high t :
  (6500 < t)%Z -> get_green t = clamp (green_high_curve (IZR t / 100 - 50)) 255.
Proof. intro H. unfold get_green. apply Z.leb_gt in H. now rewrite H. Qed.

Lemma get_blue_low t : (t <= 1900)%Z -> get_blue t = 0%Z.
Proof. intro H. unfold get_blue. apply Z.leb_le in H. now rewrite H. Qed.

Lemma get_blue_mid t :
  (1900 < t < 6500)%Z -> get_blue t = clamp (blue_curve (IZR t / 100 - 10)) 255.
Proof.
  intros [H1 H2]. unfold get_blue.
  apply Z.leb_gt in H1. apply Z.ltb_lt in H2. now rewrite H1, H2.
Qed.

Lemma get_blue_high t : (6500 <= t)%Z -> get_blue t = 255%Z.
Proof.
  intro H. unfold get_blue.
  assert (H1 : (t <=? 1900)%Z = false) by (apply Z.leb_gt; lia).
  assert (H2 : (t <? 6500)%Z = false) by (apply Z.ltb_ge; lia).
  now rewrite H1, H2.
Qed.

(** ** Logarithm facts *)

Lemma ln_le_mono x y : 0 < x -> x <= y -> ln x <= ln y.
Proof.
  intros Hx [Hlt | Heq]; [left; now apply ln_increasing | right; now rewrite Heq].
Qed.

Lemma ln_le_minus_1 z : 0 < z -> ln z <= z - 1.
Proof.
  intro Hz. pose proof (exp_ineq1_le (ln z)) as H.
  rewrite exp_ln in H by assumption. lra.
Qed.

Lemma ln_diff_lower x y : 0 < x -> 0 < y -> (y - x) / y <= ln y - ln x.
Proof.
  intros Hx Hy.
  pose proof (ln_le_minus_1 (x / y)) as H.
  assert (Hxy : 0 < x / y) by (apply Rdiv_lt_0_compat; assumption).
  specialize (H Hxy).
  unfold Rdiv in H at 1. rewrite ln_mult, ln_Rinv in H; try assumption.
  - replace ((y - x) / y) with (1 - x / y) by (field; lra). lra.
  - now apply Rinv_0_lt_compat.
Qed.

Lemma ln_64 : ln 64 <= 6.
Proof.
  replace 64 with (2 ^ 6) by lra. rewrite ln_pow by lra.
  pose proof (ln_le_minus_1 2 ltac:(lra)). simpl. lra.
Qed.

(** ** Bounds and monotonicity of the curves *)

Lemma red_curve_decr x y : 0 < x -> x <= y -> y <= 45 -> red_curve y <= red_curve x.
Proof.
  intros Hx Hxy Hy. unfold red_curve, curve.
  pose proof (ln_diff_lower x y Hx ltac:(lra)) as Hd.
  assert (Hq : (y - x) / 45 <= (y - x) / y).
  { apply Rmult_le_compat_l; [lra |]. apply Rinv_le_contravar; lra. }
  lra.
Qed.

Lemma ln_45_bounds : 3.8040 <= ln 45 <= 3.8280.
Proof.
  split.
  - ln_lower 38040%Z 10000%Z 12%nat.
  - ln_upper 38280%Z 10000%Z 12%nat.
Qed.

Lemma ln_4499_bounds : 3.8040 <= ln 44.99 <= 3.8280.
Proof.
  split.
  - ln_lower 38040%Z 10000%Z 12%nat.
  - ln_upper 38280%Z 10000%Z 12%nat.
Qed.

Lemma red_curve_45 : 203 <= red_curve 45 < 204.
Proof. pose proof ln_45_bounds. unfold red_curve, curve. lra. Qed.

Lemma red_curve_4499 : 203 <= red_curve 44.99 < 204.
Proof. pose proof ln_4499_bounds. unfold red_curve, curve. lra. Qed.

Lemma red_curve_lower x : 0 < x -> x <= 45 -> 203 <= red_curve x.
Proof.
  intros Hx Hx'. apply Rle_trans with (red_curve 45).
  - apply red_curve_45.
  - now apply red_curve_decr.
Qed.

Lemma green_high_curve_lower x : 0 < x -> x <= 64 -> 0 <= green_high_curve x.
Proof.
  intros Hx Hx'. unfold green_high_curve, curve.
  pose proof (ln_le_mono x 64 Hx Hx'). pose proof ln_64. lra.
Qed.

Lemma ln_8_lower : 2 <= ln 8.
Proof. ln_lower 2%Z 1%Z 8%nat. Qed.

Lemma green_low_curve_lower x : 8 <= x -> x <= 63 -> 0 <= green_low_curve x.
Proof.
  intros Hx Hx'. unfold green_low_curve, curve.
  pose proof (ln_le_mono 8 x ltac:(lra) Hx). pose proof ln_8_lower. lra.
Qed.

Lemma blue_curve_incr x y : 0 < x -> x <= y -> blue_curve x <= blue_curve y.
Proof.
  intros Hx Hxy. unfold blue_curve, curve.
  pose proof (ln_le_mono x y Hx Hxy). lra.
Qed.

Lemma ln_901_lower : 2.19 <= ln 9.01.
Proof. ln_lower 219%Z 100%Z 12%nat. Qed.

Lemma blue_curve_lower x : 9.01 <= x -> 6 <= blue_curve x.
Proof.
  intro Hx. apply Rle_trans with (blue_curve 9.01).
  - pose proof ln_901_lower. unfold blue_curve, curve. lra.
  - apply blue_curve_incr; lra.
Qed.

(** The argument of the logarithm, for an integer temperature. *)

Lemma arg_bounds (t lo hi : Z) (off : R) :
  (lo <= t <= hi)%Z -> IZR lo / 100 - off <= IZR t / 100 - off <= IZR hi / 100 - off.
Proof.
  intros [H1 H2]. apply IZR_le in H1, H2. lra.
Qed.

Lemma arg_le (u v : Z) (off : R) :
  (u <= v)%Z -> IZR u / 100 - off <= IZR v / 100 - off.
Proof. intro H. apply IZR_le in H. lra. Qed.

(** ** The channels as integer functions *)

Lemma red_arg t : (6500 < t <= 10000)%Z -> 10 < IZR t / 100 - 55 <= 45.
Proof.
  intros [H1 H2]. apply IZR_lt in H1. apply IZR_le in H2. lra.
Qed.

Lemma blue_arg t : (1900 < t)%Z -> 9.01 <= IZR t / 100 - 10.
Proof.
  intro H. assert (H' : (1901 <= t)%Z) by lia. apply IZR_le in H'. lra.
Qed.

Lemma get_red_range t : (t <= 10000)%Z -> (203 <= get_red t <= 255)%Z.
Proof.
  intro Ht. destruct (Z_le_gt_dec t 6500) as [Hlo | Hhi].
  - rewrite get_red_low by assumption. lia.
  - rewrite get_red_high by lia.
    destruct (red_arg t ltac:(lia)) as [Ha Hb].
    assert (Hc : 203 <= red_curve (IZR t / 100 - 55)) by (apply red_curve_lower; lra).
    split.
    + replace 203%Z with (clamp 203 255).
      * apply clamp_255_le; lra.
      * apply clamp_255_between; [lia | lra].
    + apply clamp_255_range. lra.
Qed.

Lemma get_red_antimono u v : (u <= v <= 10000)%Z -> (get_red v <= get_red u)%Z.
Proof.
  intros [Huv Hv]. destruct (Z_le_gt_dec u 6500) as [Hlo | Hhi].
  - rewrite (get_red_low u) by assumption. apply get_red_range. assumption.
  - rewrite !get_red_high by lia.
    destruct (red_arg u ltac:(lia)) as [Ha Hb].
    destruct (red_arg v ltac:(lia)) as [Ha' Hb'].
    apply clamp_255_le.
    + assert (203 <= red_curve (IZR v / 100 - 55)) by (apply red_curve_lower; lra). lra.
    + apply red_curve_decr; [lra | now apply arg_le | assumption].
Qed.

Lemma get_blue_range t : (0 <= get_blue t <= 255)%Z.
Proof.
  destruct (Z_le_gt_dec t 1900) as [Hlo | Hhi].
  - rewrite get_blue_low by assumption. lia.
  - destruct (Z_lt_le_dec t 6500) as [Hm | Hh].
    + rewrite get_blue_mid by lia. apply clamp_255_range.
      pose proof (blue_curve_lower _ (blue_arg t ltac:(lia))). lra.
    + rewrite get_blue_high by assumption. lia.
Qed.

Lemma get_blue_mono u v : (u <= v)%Z -> (get_blue u <= get_blue v)%Z.
Proof.
  intro Huv. destruct (Z_le_gt_dec u 1900) as [Hlo | Hhi].
  - rewrite (get_blue_low u) by assumption. apply get_blue_range.
  - destruct (Z_lt_le_dec v 6500) as [Hm | Hh].
    + rewrite !get_blue_mid by lia. apply clamp_255_le.
      * pose proof (blue_curve_lower _ (blue_arg u ltac:(lia))). lra.
      * pose proof (blue_arg u ltac:(lia)).
        apply blue_curve_incr; [lra | now apply arg_le].
    + rewrite (get_blue_high v) by assumption. apply get_blue_range.
Qed.

Lemma get_green_range t : (1000 <= t <= 10000)%Z -> (0 <= get_green t <= 255)%Z.
Proof.
  intros [Hlo Hhi]. destruct (Z_le_gt_dec t 6500) as [Hl | Hh].
  - rewrite get_green_low by assumption. apply clamp_255_range.
    destruct (arg_bounds t 1000 6500 2 ltac:(lia)) as [Ha Hb].
    pose proof (green_low_curve_lower (IZR t / 100 - 2) ltac:(lra) ltac:(lra)). lra.
  - rewrite get_green_high by lia. apply clamp_255_range.
    destruct (arg_bounds t 6501 10000 50 ltac:(lia)) as [Ha Hb].
    pose proof (green_high_curve_lower (IZR t / 100 - 50) ltac:(lra) ltac:(lra)). lra.
Qed.

Lemma get_red_9999 : get_red 9999 = 203%Z.
Proof.
  rewrite get_red_high by lia.
  replace (IZR 9999 / 100 - 55) with 44.99 by lra.
  apply clamp_255_between; [lia | pose proof red_curve_4499; lra].
Qed.

Lemma get_red_10000 : get_red 10000 = 203%Z.
Proof.
  rewrite get_red_high by lia.
  replace (IZR 10000 / 100 - 55) with 45 by lra.
  apply clamp_255_between; [lia | pose proof red_curve_45; lra].
Qed.

(** ** The comparison of the two ratios *)

Lemma ratio_gt_spec testB testR B R :
  ratio_gt testB testR B R = true <-> IZR testB / IZR testR > IZR B / IZR R.
Proof.
  unfold ratio_gt. destruct (Rgt_dec _ _); split; intro H; try reflexivity;
    try assumption; try discriminate; contradiction.
Qed.

Lemma ratio_gt_same_den testB B d :
  (0 < d)%Z -> ratio_gt testB d B d = (B <? testB)%Z.
Proof.
  intro Hd. apply IZR_lt in Hd.
  destruct (Z.ltb_spec B testB) as [Hlt | Hge].
  - apply ratio_gt_spec. apply IZR_lt in Hlt.
    unfold Rdiv. apply Rmult_lt_compat_r; [now apply Rinv_0_lt_compat | assumption].
  - apply not_true_is_false. intro Hc. apply ratio_gt_spec in Hc.
    apply IZR_le in Hge. unfold Rdiv in Hc.
    apply Rmult_lt_reg_r in Hc; [lra | now apply Rinv_0_lt_compat].
Qed.

Lemma ratio_gt_same_num n testR R :
  (0 < n)%Z -> (0 < testR)%Z -> (0 < R)%Z ->
  ratio_gt n testR n R = (testR <? R)%Z.
Proof.
  intros Hn HtR HR. apply IZR_lt in Hn. pose proof (IZR_lt _ _ HtR) as HtR'.
  pose proof (IZR_lt _ _ HR) as HR'.
  destruct (Z.ltb_spec testR R) as [Hlt | Hge].
  - apply ratio_gt_spec. apply IZR_lt in Hlt. unfold Rdiv.
    apply Rmult_lt_compat_l; [assumption |]. apply Rinv_lt_contravar; nra.
  - apply not_true_is_false. intro Hc. apply ratio_gt_spec in Hc.
    apply IZR_le in Hge. unfold Rdiv in Hc.
    apply Rmult_lt_reg_l in Hc; [| assumption].
    assert (/ IZR testR <= / IZR R) by (apply Rinv_le_contravar; lra). lra.
Qed.

(** ** The bisection loop *)

Lemma midpoint_bounds lo hi :
  (0 <= lo)%Z -> (lo < hi)%Z -> (lo <= Z.quot (hi + lo) 2 < hi)%Z.
Proof.
  intros H0 Hlt. rewrite Z.quot_div_nonneg by lia.
  split; [apply Z.div_le_lower_bound | apply Z.div_lt_upper_bound]; lia.
Qed.

Lemma bisect_exit n lo hi R B :
  let temperature := Z.quot (hi + lo) 2 in
  get_red temperature = R -> get_blue temperature = B ->
  bisect (S n) lo hi R B = Some temperature.
Proof.
  intros temperature HR HB. simpl. fold temperature.
  rewrite HR, HB, !Z.eqb_refl. reflexivity.
Qed.

Lemma bisect_continue n lo hi R B :
  let temperature := Z.quot (hi + lo) 2 in
  get_red temperature <> R \/ get_blue temperature <> B ->
  bisect (S n) lo hi R B =
    if ratio_gt (get_blue temperature) (get_red temperature) B R
    then bisect n lo temperature R B
    else bisect n temperature hi R B.
Proof.
  intros temperature Hne. simpl. fold temperature.
  assert (Hc : negb (get_red temperature =? R)%Z
               || negb (get_blue temperature =? B)%Z = true).
  { apply orb_true_iff. destruct Hne as [H | H]; [left | right];
      apply negb_true_iff, Z.eqb_neq; exact H. }
  rewrite Hc. destruct (ratio_gt _ _ _ _); reflexivity.
Qed.

Section Bisection.
Variables R B s lo hi : Z.

Hypothesis lo_nonneg : (0 <= lo)%Z.
Hypothesis direction : forall temp, (lo <= temp < hi)%Z ->
  (get_red temp = R /\ get_blue temp = B) \/
  (ratio_gt (get_blue temp) (get_red temp) B R = true /\ (s < temp)%Z) \/
  (ratio_gt (get_blue temp) (get_red temp) B R = false /\ (temp < s)%Z).

Lemma bisect_step min_temp max_temp :
  (lo <= min_temp)%Z -> (min_temp <= s < max_temp)%Z -> (max_temp <= hi)%Z ->
  let temperature := Z.quot (max_temp + min_temp) 2 in
  (get_red temperature = R /\ get_blue temperature = B /\
   forall n, bisect (S n) min_temp max_temp R B = Some temperature) \/
  ((s < temperature)%Z /\
   forall n, bisect (S n) min_temp max_temp R B = bisect n min_temp temperature R B) \/
  ((temperature < s)%Z /\
   forall n, bisect (S n) min_temp max_temp R B = bisect n temperature max_temp R B).
Proof.
  intros Hlo Hs Hhi temperature.
  pose proof (midpoint_bounds min_temp max_temp ltac:(lia) ltac:(lia)) as Hmid.
  fold temperature in Hmid.
  assert (Hcases : (get_red temperature = R /\ get_blue temperature = B) \/
                   (get_red temperature <> R \/ get_blue temperature <> B)).
  { destruct (Z.eq_dec (get_red temperature) R);
      destruct (Z.eq_dec (get_blue temperature) B); auto. }
  destruct Hcases as [[HR HB] | Hne].
  - left. repeat split; try assumption. intro n. now apply bisect_exit.
  - right.
    destruct (direction temperature ltac:(lia)) as [[HR HB] | [[Hgt Hst] | [Hgt Hst]]].
    + exfalso. destruct Hne as [Hne | Hne]; now apply Hne.
    + left. split; [assumption |]. intro n.
      rewrite bisect_continue by exact Hne. fold temperature. now rewrite Hgt.
    + right. split; [assumption |]. intro n.
      rewrite bisect_continue by exact Hne. fold temperature. now rewrite Hgt.
Qed.

Lemma bisect_converges : forall k min_temp max_temp,
  (lo <= min_temp)%Z -> (min_temp <= s < max_temp)%Z -> (max_temp <= hi)%Z ->
  (max_temp - min_temp <= 2 ^ Z.of_nat k)%Z ->
  exists t,
    (forall n, (k < n)%nat -> bisect n min_temp max_temp R B = Some t) /\
    get_red t = R /\ get_blue t = B /\ (min_temp <= t < max_temp)%Z.
Proof.
  induction k as [| k IH]; intros min_temp max_temp Hlo Hs Hhi Hk;
    pose proof (midpoint_bounds min_temp max_temp ltac:(lia) ltac:(lia)) as Hmid;
    destruct (bisect_step min_temp max_temp Hlo Hs Hhi)
      as [(HR & HB & Hrun) | [[Hst Hrun] | [Hst Hrun]]];
    set (temperature := Z.quot (max_temp + min_temp) 2) in *;
    try (exists temperature; repeat split; try assumption; try lia;
         intros [| n] Hn; [lia | apply Hrun]).
  - change (2 ^ Z.of_nat 0)%Z with 1%Z in Hk. lia.
  - change (2 ^ Z.of_nat 0)%Z with 1%Z in Hk. lia.
  - rewrite Nat2Z.inj_succ, Z.pow_succ_r in Hk by lia.
    assert (Hhalf : (2 * temperature <= max_temp + min_temp)%Z).
    { unfold temperature. rewrite Z.quot_div_nonneg by lia.
      apply Z.mul_div_le. lia. }
    destruct (IH min_temp temperature) as (t & Ht & HtR & HtB & Hrange); try lia.
    exists t. repeat split; try assumption; try lia.
    intros [| n] Hn; [lia |]. rewrite Hrun. apply Ht. lia.
  - rewrite Nat2Z.inj_succ, Z.pow_succ_r in Hk by lia.
    assert (Hhalf : (max_temp + min_temp < 2 * temperature + 2)%Z).
    { unfold temperature. rewrite Z.quot_div_nonneg by lia.
      pose proof (Z.div_mod (max_temp + min_temp) 2 ltac:(lia)).
      pose proof (Z.mod_pos_bound (max_temp + min_temp) 2 ltac:(lia)). lia. }
    destruct (IH temperature max_temp) as (t & Ht & HtR & HtB & Hrange); try lia.
    exists t. repeat split; try assumption; try lia.
    intros [| n] Hn; [lia |]. rewrite Hrun. apply Ht. lia.
Qed.
End Bisection.

(** The direction taken by the loop below 6500 K, where red is saturated. *)

Lemma direction_blue s B temp :
  get_red s = 255%Z -> get_blue s = B -> (1000 <= temp < 6500)%Z ->
  (get_red temp = 255%Z /\ get_blue temp = B) \/
  (ratio_gt (get_blue temp) (get_red temp) B 255 = true /\ (s < temp)%Z) \/
  (ratio_gt (get_blue temp) (get_red temp) B 255 = false /\ (temp < s)%Z).
Proof.
  intros HsR HsB Ht.
  assert (HR : get_red temp = 255%Z) by (apply get_red_low; lia).
  rewrite HR, ratio_gt_same_den by lia.
  destruct (Z.lt_trichotomy (get_blue temp) B) as [Hlt | [Heq | Hgt]].
  - right; right. split; [apply Z.ltb_ge; lia |].
    destruct (Z_lt_le_dec temp s) as [H | H]; [assumption |].
    pose proof (get_blue_mono s temp H). lia.
  - left. now split.
  - right; left. split; [apply Z.ltb_lt; lia |].
    destruct (Z_lt_le_dec s temp) as [H | H]; [assumption |].
    pose proof (get_blue_mono temp s H). lia.
Qed.

(** The direction taken from 6500 K up, where blue is saturated. *)

Lemma direction_red s R temp :
  get_red s = R -> (s <= 10000)%Z -> (6500 <= temp < 10000)%Z ->
  (get_red temp = R /\ get_blue temp = 255%Z) \/
  (ratio_gt (get_blue temp) (get_red temp) 255 R = true /\ (s < temp)%Z) \/
  (ratio_gt (get_blue temp) (get_red temp) 255 R = false /\ (temp < s)%Z).
Proof.
  intros HsR Hs Ht.
  assert (HB : get_blue temp = 255%Z) by (apply get_blue_high; lia).
  pose proof (get_red_range temp ltac:(lia)) as Hrt.
  pose proof (get_red_range s Hs) as Hrs. rewrite HsR in Hrs.
  rewrite HB, ratio_gt_same_num by lia.
  destruct (Z.lt_trichotomy (get_red temp) R) as [Hlt | [Heq | Hgt]].
  - right; left. split; [apply Z.ltb_lt; lia |].
    destruct (Z_lt_le_dec s temp) as [H | H]; [assumption |].
    pose proof (get_red_antimono temp s ltac:(lia)). lia.
  - left. now split.
  - right; right. split; [apply Z.ltb_ge; lia |].
    destruct (Z_lt_le_dec temp s) as [H | H]; [assumption |].
    pose proof (get_red_antimono s temp ltac:(lia)). lia.
Qed.

(** ** Fitting to a step of 50 *)

Lemma fit50_hit temperature R B :
  get_red temperature = R -> get_blue temperature = B ->
  get_red (fit50 temperature R B) = R /\ get_blue (fit50 temperature R B) = B.
Proof.
  intros HR HB. unfold fit50.
  destruct (negb (Z.rem temperature 50 =? 0)%Z); [| now split].
  destruct (_ && _) eqn:H1.
  - apply andb_true_iff in H1. destruct H1 as [H1 H2].
    apply Z.eqb_eq in H1, H2. split; assumption.
  - clear H1. destruct (_ && _) eqn:H2; [| now split].
    apply andb_true_iff in H2. destruct H2 as [H2 H3].
    apply Z.eqb_eq in H2, H3. split; assumption.
Qed.

Lemma fit50_range temperature R B :
  (1000 <= temperature <= 10000)%Z ->
  (1000 <= fit50 temperature R B <= 10000)%Z.
Proof.
  intro Ht. unfold fit50. rewrite Z.rem_mod_nonneg by lia.
  pose proof (Z.div_mod temperature 50 ltac:(lia)) as Hdm.
  pose proof (Z.mod_pos_bound temperature 50 ltac:(lia)) as Hm.
  destruct (Z.eqb_spec (temperature mod 50) 0) as [H0 | H0]; simpl; [lia |].
  destruct (_ && _); [lia |]. destruct (_ && _); lia.
Qed.

Lemma get_blue_mid_lower t : (1900 < t < 6500)%Z -> (6 <= get_blue t)%Z.
Proof.
  intro Ht. rewrite get_blue_mid by assumption.
  replace 6%Z with (clamp 6 255) by (apply clamp_255_between; [lia | lra]).
  apply clamp_255_le; [lra | apply blue_curve_lower, blue_arg; lia].
Qed.

Lemma bisect_saturated n : bisect (S n) 6500 6500 255 255 = Some 6500%Z.
Proof. apply (bisect_exit n 6500 6500 255 255); reflexivity. Qed.

(** One step of the loop below 6500 K when the midpoint is too blue. *)
Lemma bisect_step_down n lo hi B :
  let temperature := Z.quot (hi + lo) 2 in
  (temperature <= 6500)%Z -> (B < get_blue temperature)%Z ->
  bisect (S n) lo hi 255 B = bisect n lo temperature 255 B.
Proof.
  intros temperature Hle Hlt.
  rewrite bisect_continue by (right; fold temperature; lia).
  fold temperature. rewrite (get_red_low temperature Hle).
  rewrite ratio_gt_same_den by lia.
  apply Z.ltb_lt in Hlt. now rewrite Hlt.
Qed.

(** C9: for a saturated pair (R = B = 255, what the forward mapping gives at
    6500 K) both search bounds start at 6500, the first midpoint is 6500 and
    already has red = blue = 255, so one iteration of the loop suffices and
    [get_temp] returns exactly 6500. *)
Theorem get_temp_saturated_pair :
  get_red 6500 = 255%Z /\ get_blue 6500 = 255%Z /\
  min_temp_init 255 = 6500%Z /\ max_temp_init 255 = 6500%Z /\
  Z.quot (max_temp_init 255 + min_temp_init 255) 2 = 6500%Z /\
  bisect 1 (min_temp_init 255) (max_temp_init 255) 255 255 = Some 6500%Z /\
  get_temp 1 255 255 = Some 6500%Z.
Proof.
  repeat split; reflexivity.
Qed.

(** C6: for every temperature in [1000, 10000] (the branch boundaries 1900 and
    6500 included) each of [get_red], [get_green] and [get_blue] is at least 0
    and at most 255. *)
Theorem channels_within_0_255 (t : Z) :
  (1000 <= t <= 10000)%Z ->
  (0 <= get_red t <= 255)%Z /\ (0 <= get_green t <= 255)%Z /\
  (0 <= get_blue t <= 255)%Z.
Proof.
  intro Ht. split; [| split].
  - pose proof (get_red_range t ltac:(lia)). lia.
  - now apply get_green_range.
  - apply get_blue_range.
Qed.

Lemma channels_within_0_255_witness :
  (1000 <= 1900 <= 10000)%Z /\
  ((0 <= get_red 1900 <= 255)%Z /\ (0 <= get_green 1900 <= 255)%Z /\
   (0 <= get_blue 1900 <= 255)%Z).
Proof. split; [lia | apply (channels_within_0_255 1900); lia]. Defined.

(** C2, the claim as stated fails: 1000 is a multiple of 50, and the inverse
    applied to the red and blue channels of 1000 K returns 1650, not 1000. *)
Lemma get_temp_of_1000_is_1650 :
  Z.rem 1000 50 = 0%Z /\
  get_temp 3 (get_red 1000) (get_blue 1000) = Some 1650%Z /\
  1650%Z <> 1000%Z.
Proof.
  split; [reflexivity | split; [| discriminate]].
  rewrite (get_red_low 1000), (get_blue_low 1000) by lia.
  unfold get_temp. change (min_temp_init 0) with 1000%Z.
  change (max_temp_init 255) with 6500%Z.
  rewrite bisect_step_down;
    [| vm_compute; discriminate
     | change (Z.quot (6500 + 1000) 2) with 3750%Z;
       pose proof (get_blue_mid_lower 3750 ltac:(lia)); lia].
  change (Z.quot (6500 + 1000) 2) with 3750%Z.
  rewrite bisect_step_down;
    [| vm_compute; discriminate
     | change (Z.quot (3750 + 1000) 2) with 2375%Z;
       pose proof (get_blue_mid_lower 2375 ltac:(lia)); lia].
  change (Z.quot (3750 + 1000) 2) with 2375%Z.
  rewrite (bisect_exit 0 1000 2375 255 0);
    [| change (Z.quot (2375 + 1000) 2) with 1687%Z; apply get_red_low; lia
     | change (Z.quot (2375 + 1000) 2) with 1687%Z; apply get_blue_low; lia].
  change (Z.quot (2375 + 1000) 2) with 1687%Z.
  unfold fit50. change (Z.rem 1687 50) with 37%Z.
  change (1687 - 37)%Z with 1650%Z.
  rewrite (get_red_low 1650), (get_blue_low 1650) by lia. reflexivity.
Qed.

(** The loop of [get_temp] on the channels of a temperature: 15 iterations
    suffice, and the value it stops at has these channels. *)
Lemma bisect_converges_on_channels (t : Z) :
  (1000 <= t <= 10000)%Z ->
  exists t0,
    (forall fuel, (15 <= fuel)%nat ->
       bisect fuel (min_temp_init (get_blue t)) (max_temp_init (get_red t))
         (get_red t) (get_blue t) = Some t0) /\
    get_red t0 = get_red t /\ get_blue t0 = get_blue t /\
    (1000 <= t0 <= 10000)%Z.
Proof.
  intro Ht.
  destruct (Z.eq_dec (get_blue t) 255) as [HB | HB];
    destruct (Z.eq_dec (get_red t) 255) as [HR | HR].
  - (* both channels saturated *)
    exists 6500%Z. rewrite HR, HB. repeat split; try lia; try reflexivity.
    intros [| n] Hn; [lia |]. apply bisect_saturated.
  - (* blue saturated, red below 255: the search runs in [6500, 10000] *)
    assert (Hhigh : (6500 < t)%Z).
    { destruct (Z_le_gt_dec t 6500) as [H | H]; [| lia].
      now rewrite get_red_low in HR. }
    assert (Hs : exists s, (6500 <= s < 10000)%Z /\ get_red s = get_red t).
    { destruct (Z.eq_dec t 10000) as [-> | Hne].
      - exists 9999%Z. split; [lia |]. now rewrite get_red_9999, get_red_10000.
      - exists t. split; [lia | reflexivity]. }
    destruct Hs as (s & Hsr & HsR).
    destruct (bisect_converges (get_red t) (get_blue t) s 6500 10000 ltac:(lia))
      with (k := 14%nat) (min_temp := 6500%Z) (max_temp := 10000%Z)
      as (t0 & Hrun & HR0 & HB0 & Hrange); try lia.
    { intros temp Htemp. rewrite HB. apply direction_red; [assumption | lia | assumption]. }
    assert (Hlo : min_temp_init (get_blue t) = 6500%Z) by now rewrite HB.
    assert (Hhi : max_temp_init (get_red t) = 10000%Z).
    { unfold max_temp_init. apply Z.eqb_neq in HR. now rewrite HR. }
    exists t0. repeat split; try assumption; try lia.
    intros fuel Hfuel. rewrite Hlo, Hhi. apply Hrun. lia.
  - (* red saturated, blue below 255: the search runs in [1000, 6500] *)
    assert (Hlow : (t < 6500)%Z).
    { destruct (Z_lt_le_dec t 6500) as [H | H]; [assumption |].
      now rewrite get_blue_high in HB. }
    destruct (bisect_converges (get_red t) (get_blue t) t 1000 6500 ltac:(lia))
      with (k := 14%nat) (min_temp := 1000%Z) (max_temp := 6500%Z)
      as (t0 & Hrun & HR0 & HB0 & Hrange); try lia.
    { intros temp Htemp. rewrite HR. apply direction_blue; [assumption | reflexivity | assumption]. }
    assert (Hlo : min_temp_init (get_blue t) = 1000%Z).
    { unfold min_temp_init. apply Z.eqb_neq in HB. now rewrite HB. }
    assert (Hhi : max_temp_init (get_red t) = 6500%Z) by now rewrite HR.
    exists t0. repeat split; try assumption; try lia.
    intros fuel Hfuel. rewrite Hlo, Hhi. apply Hrun. lia.
  - (* impossible: one of the two channels is always saturated *)
    exfalso. destruct (Z_le_gt_dec t 6500) as [H | H].
    + now rewrite get_red_low in HR.
    + rewrite get_blue_high in HB by lia. now apply HB.
Qed.

(** What the fit to steps of 50 returns. *)
Lemma fit50_cases temperature R B :
  (Z.rem temperature 50 = 0 -> fit50 temperature R B = temperature)%Z /\
  (Z.rem temperature 50 <> 0 ->
     let below := temperature - Z.rem temperature 50 in
     let above := temperature + 50 - Z.rem temperature 50 in
     (get_red below = R /\ get_blue below = B ->
        fit50 temperature R B = below) /\
     (~ (get_red below = R /\ get_blue below = B) ->
        get_red above = R /\ get_blue above = B ->
        fit50 temperature R B = above) /\
     (~ (get_red below = R /\ get_blue below = B) ->
        ~ (get_red above = R /\ get_blue above = B) ->
        fit50 temperature R B = temperature))%Z.
Proof.
  assert (Hand : forall x, ((get_red x =? R) && (get_blue x =? B))%Z = true
                           <-> get_red x = R /\ get_blue x = B).
  { intro x. now rewrite andb_true_iff, !Z.eqb_eq. }
  unfold fit50. split.
  - intro H0. apply Z.eqb_eq in H0. now rewrite H0.
  - intro Hne. apply Z.eqb_neq in Hne. rewrite Hne. cbn [negb]. cbv zeta.
    destruct ((get_red (temperature - Z.rem temperature 50) =? R)
              && (get_blue (temperature - Z.rem temperature 50) =? B))%Z eqn:Hb.
    + apply Hand in Hb. split; [reflexivity | split; intro H; contradiction].
    + assert (Hnb : ~ (get_red (temperature - Z.rem temperature 50) = R /\
                      get_blue (temperature - Z.rem temperature 50) = B)).
      { intro H. apply Hand in H. rewrite H in Hb. discriminate. }
      split; [intro H; contradiction |].
      destruct ((get_red (temperature + 50 - Z.rem temperature 50) =? R)
                && (get_blue (temperature + 50 - Z.rem temperature 50) =? B))%Z
        eqn:Ha.
      * apply Hand in Ha. split; [reflexivity | intros _ H; contradiction].
      * split; [| reflexivity]. intros _ H. apply Hand in H.
        rewrite H in Ha. discriminate.
Qed.

(** C2, amended: for every integer t in [1000, 10000], [get_temp] applied to
    the red and blue channels of t terminates (15 iterations of the loop
    suffice, and more fuel gives the same result): the loop stops at a
    temperature t0 of [1000, 10000] that has the red and the blue of t, and
    the result t' is t0 fitted to steps of 50: t0 itself when it is a
    multiple of 50; else the multiple of 50 just below t0 when that one has
    the same red and blue; else the multiple of 50 just above t0 when that
    one has them; else t0, unrounded.  In every case t' lies in [1000, 10000]
    and has the red and the blue of t.  Nothing is promised about t' = t. *)
Theorem get_temp_reproduces_channels (t : Z) :
  (1000 <= t <= 10000)%Z ->
  exists t0 t',
    (forall fuel, (15 <= fuel)%nat ->
       bisect fuel (min_temp_init (get_blue t)) (max_temp_init (get_red t))
         (get_red t) (get_blue t) = Some t0 /\
       get_temp fuel (get_red t) (get_blue t) = Some t') /\
    (get_red t0 = get_red t /\ get_blue t0 = get_blue t /\
     (1000 <= t0 <= 10000)%Z) /\
    (get_red t' = get_red t /\ get_blue t' = get_blue t /\
     (1000 <= t' <= 10000)%Z) /\
    (Z.rem t0 50 = 0 -> t' = t0)%Z /\
    (Z.rem t0 50 <> 0 ->
       let below := t0 - Z.rem t0 50 in
       let above := t0 + 50 - Z.rem t0 50 in
       (get_red below = get_red t /\ get_blue below = get_blue t ->
          t' = below) /\
       (~ (get_red below = get_red t /\ get_blue below = get_blue t) ->
          get_red above = get_red t /\ get_blue above = get_blue t ->
          t' = above) /\
       (~ (get_red below = get_red t /\ get_blue below = get_blue t) ->
          ~ (get_red above = get_red t /\ get_blue above = get_blue t) ->
          t' = t0))%Z.
Proof.
  intro Ht.
  destruct (bisect_converges_on_channels t Ht) as (t0 & Hrun & HR & HB & Hrange).
  exists t0, (fit50 t0 (get_red t) (get_blue t)).
  destruct (fit50_hit t0 _ _ HR HB) as [HR' HB'].
  destruct (fit50_cases t0 (get_red t) (get_blue t)) as [Hmult Hfit].
  split; [| split; [| split; [| split]]].
  - intros fuel Hfuel. split; [now apply Hrun |].
    unfold get_temp. now rewrite (Hrun fuel Hfuel).
  - now repeat split.
  - repeat split; try assumption; now apply fit50_range.
  - exact Hmult.
  - exact Hfit.
Qed.

Lemma get_temp_reproduces_channels_witness :
  (1000 <= 10000 <= 10000)%Z /\
  exists t0 t',
    (forall fuel, (15 <= fuel)%nat ->
       bisect fuel (min_temp_init (get_blue 10000)) (max_temp_init (get_red 10000))
         (get_red 10000) (get_blue 10000) = Some t0 /\
       get_temp fuel (get_red 10000) (get_blue 10000) = Some t') /\
    (get_red t0 = get_red 10000 /\ get_blue t0 = get_blue 10000 /\
     (1000 <= t0 <= 10000)%Z) /\
    (get_red t' = get_red 10000 /\ get_blue t' = get_blue 10000 /\
     (1000 <= t' <= 10000)%Z) /\
    (Z.rem t0 50 = 0 -> t' = t0)%Z /\
    (Z.rem t0 50 <> 0 ->
       let below := t0 - Z.rem t0 50 in
       let above := t0 + 50 - Z.rem t0 50 in
       (get_red below = get_red 10000 /\ get_blue below = get_blue 10000 ->
          t' = below) /\
       (~ (get_red below = get_red 10000 /\ get_blue below = get_blue 10000) ->
          get_red above = get_red 10000 /\ get_blue above = get_blue 10000 ->
          t' = above) /\
       (~ (get_red below = get_red 10000 /\ get_blue below = get_blue 10000) ->
          ~ (get_red above = get_red 10000 /\ get_blue above = get_blue 10000) ->
          t' = t0))%Z.
Proof. split; [lia | apply (get_temp_reproduces_channels 10000); lia]. Defined.

(** ** The inverse on arbitrary pairs *)

Lemma midpoint_within lo hi :
  (0 <= lo)%Z -> (lo <= hi)%Z -> (lo <= Z.quot (hi + lo) 2 <= hi)%Z.
Proof.
  intros H0 Hle. rewrite Z.quot_div_nonneg by lia.
  split; [apply Z.div_le_lower_bound | apply Z.div_le_upper_bound]; lia.
Qed.

Lemma bisect_sound : forall fuel min_temp max_temp R B t,
  (0 <= min_temp)%Z -> (min_temp <= max_temp)%Z ->
  bisect fuel min_temp max_temp R B = Some t ->
  get_red t = R /\ get_blue t = B /\ (min_temp <= t <= max_temp)%Z.
Proof.
  induction fuel as [| fuel IH]; intros min_temp max_temp R B t H0 Hle Hrun;
    [discriminate |].
  pose proof (midpoint_within min_temp max_temp H0 Hle) as Hmid.
  cbn [bisect] in Hrun.
  set (temperature := Z.quot (max_temp + min_temp) 2) in *.
  destruct (Z.eqb_spec (get_red temperature) R) as [HR | HR];
    [destruct (Z.eqb_spec (get_blue temperature) B) as [HB | HB] |];
    cbn [negb orb] in Hrun.
  - injection Hrun as <-. now repeat split.
  - destruct (ratio_gt _ _ _ _);
      apply IH in Hrun; try lia; destruct Hrun as (H1 & H2 & H3);
      repeat split; try assumption; lia.
  - destruct (ratio_gt _ _ _ _);
      apply IH in Hrun; try lia; destruct Hrun as (H1 & H2 & H3);
      repeat split; try assumption; lia.
Qed.

Lemma init_bounds R B :
  (1000 <= min_temp_init B)%Z /\ (min_temp_init B <= max_temp_init R)%Z /\
  (max_temp_init R <= 10000)%Z.
Proof.
  unfold min_temp_init, max_temp_init.
  destruct (B =? 255)%Z, (R =? 255)%Z; lia.
Qed.

Lemma get_temp_sound fuel R B t :
  get_temp fuel R B = Some t ->
  get_red t = R /\ get_blue t = B /\ (1000 <= t <= 10000)%Z.
Proof.
  unfold get_temp. intro Hrun.
  destruct (bisect fuel _ _ R B) as [t0 |] eqn:Hb; [| discriminate].
  injection Hrun as <-.
  destruct (init_bounds R B) as (H1 & H2 & H3).
  apply bisect_sound in Hb; [| lia | lia]. destruct Hb as (HR & HB & Hrange).
  destruct (fit50_hit t0 R B HR HB) as [HR' HB'].
  repeat split; try assumption; apply fit50_range; lia.
Qed.

(** Whatever pair it is given, when [get_temp] returns, the temperature it
    returns lies in [1000, 10000] and has exactly the red and the blue asked
    for; so asking again with the channels of the result gives the result
    again. *)
Theorem get_temp_returns_only_exact_matches (fuel : nat) (R B t : Z) :
  get_temp fuel R B = Some t ->
  get_red t = R /\ get_blue t = B /\ (1000 <= t <= 10000)%Z /\
  get_temp fuel (get_red t) (get_blue t) = Some t.
Proof.
  intro Hrun. destruct (get_temp_sound fuel R B t Hrun) as (HR & HB & Hrange).
  repeat split; try assumption; try lia. now rewrite HR, HB.
Qed.

Lemma get_temp_returns_only_exact_matches_witness :
  get_temp 1 255 255 = Some 6500%Z /\
  (get_red 6500 = 255%Z /\ get_blue 6500 = 255%Z /\ (1000 <= 6500 <= 10000)%Z /\
   get_temp 1 (get_red 6500) (get_blue 6500) = Some 6500%Z).
Proof.
  split; [reflexivity |].
  apply (get_temp_returns_only_exact_matches 1 255 255 6500). reflexivity.
Defined.

Lemma get_temp_unreachable R B :
  (forall t, (1000 <= t <= 10000)%Z -> ~ (get_red t = R /\ get_blue t = B)) ->
  forall fuel, get_temp fuel R B = None.
Proof.
  intros Hnone fuel. destruct (get_temp fuel R B) as [t |] eqn:Hrun; [| reflexivity].
  destruct (get_temp_sound fuel R B t Hrun) as (HR & HB & Hrange).
  exfalso. apply (Hnone t Hrange). now split.
Qed.

Lemma get_blue_gap t : (get_blue t = 0 \/ 6 <= get_blue t)%Z.
Proof.
  destruct (Z_le_gt_dec t 1900) as [Hlo | Hhi].
  - left. now apply get_blue_low.
  - right. destruct (Z_lt_le_dec t 6500) as [Hm | Hh].
    + apply get_blue_mid_lower. lia.
    + rewrite get_blue_high by assumption. lia.
Qed.

(** A pair that no temperature of [1000, 10000] produces makes the loop of
    [get_temp] run for ever: whatever the fuel, it does not return.  Such
    pairs exist: blue jumps from 0 to at least 6, and red never drops below
    203. *)
Theorem get_temp_never_returns_on_unreachable_pair (R B : Z) :
  (forall t, (1000 <= t <= 10000)%Z -> ~ (get_red t = R /\ get_blue t = B)) ->
  forall fuel, get_temp fuel R B = None.
Proof. apply get_temp_unreachable. Qed.

Lemma get_temp_never_returns_on_unreachable_pair_witness :
  (forall t, (1000 <= t <= 10000)%Z -> ~ (get_red t = 255%Z /\ get_blue t = 3%Z)) /\
  (forall fuel, get_temp fuel 255 3 = None).
Proof.
  assert (H : forall t, (1000 <= t <= 10000)%Z ->
                ~ (get_red t = 255%Z /\ get_blue t = 3%Z)).
  { intros t _ [_ HB]. destruct (get_blue_gap t); lia. }
  split; [exact H | exact (get_temp_never_returns_on_unreachable_pair 255 3 H)].
Defined.

(** ** Monotonicity of the channels *)

Lemma green_low_curve_incr x y :
  0 < x -> x <= y -> y <= 63 -> green_low_curve x <= green_low_curve y.
Proof.
  intros Hx Hxy Hy. unfold green_low_curve, curve.
  pose proof (ln_diff_lower x y Hx ltac:(lra)) as Hd.
  assert (Hq : (y - x) / 63 <= (y - x) / y).
  { apply Rmult_le_compat_l; [lra |]. apply Rinv_le_contravar; lra. }
  lra.
Qed.

Lemma green_high_curve_decr x y :
  0 < x -> x <= y -> y <= 50 -> green_high_curve y <= green_high_curve x.
Proof.
  intros Hx Hxy Hy. unfold green_high_curve, curve.
  pose proof (ln_diff_lower x y Hx ltac:(lra)) as Hd.
  assert (Hq : (y - x) / 50 <= (y - x) / y).
  { apply Rmult_le_compat_l; [lra |]. apply Rinv_le_contravar; lra. }
  lra.
Qed.

(** Warmer light is never bluer and never redder than colder light allows:
    blue does not decrease with the temperature, red does not increase (up
    to 10000 K, where it is still at least 203), and green rises up to
    6500 K and falls from 6501 K on. *)
Theorem channels_are_monotone (u v : Z) :
  (u <= v)%Z ->
  (get_blue u <= get_blue v)%Z /\
  ((v <= 10000)%Z -> (203 <= get_red v <= get_red u)%Z) /\
  ((1000 <= u)%Z -> (v <= 6500)%Z -> (get_green u <= get_green v)%Z) /\
  ((6500 < u)%Z -> (v <= 10000)%Z -> (get_green v <= get_green u)%Z).
Proof.
  intro Huv. split; [now apply get_blue_mono | split; [| split]].
  - intro Hv. pose proof (get_red_range v Hv).
    pose proof (get_red_antimono u v ltac:(lia)). lia.
  - intros Hu Hv. rewrite !get_green_low by lia.
    destruct (arg_bounds u 1000 6500 2 ltac:(lia)) as [Ha Hb].
    destruct (arg_bounds v 1000 6500 2 ltac:(lia)) as [Ha' Hb'].
    apply clamp_255_le.
    + pose proof (green_low_curve_lower (IZR u / 100 - 2) ltac:(lra) ltac:(lra)). lra.
    + apply green_low_curve_incr; [lra | now apply arg_le | lra].
  - intros Hu Hv. rewrite !get_green_high by lia.
    destruct (arg_bounds u 6501 10000 50 ltac:(lia)) as [Ha Hb].
    destruct (arg_bounds v 6501 10000 50 ltac:(lia)) as [Ha' Hb'].
    apply clamp_255_le.
    + pose proof (green_high_curve_lower (IZR v / 100 - 50) ltac:(lra) ltac:(lra)). lra.
    + apply green_high_curve_decr; [lra | now apply arg_le | lra].
Qed.

Lemma channels_are_monotone_witness :
  (2000 <= 9000)%Z /\
  (get_blue 2000 <= get_blue 9000)%Z /\
  ((9000 <= 10000)%Z -> (203 <= get_red 9000 <= get_red 2000)%Z) /\
  ((1000 <= 2000)%Z -> (9000 <= 6500)%Z -> (get_green 2000 <= get_green 9000)%Z) /\
  ((6500 < 2000)%Z -> (9000 <= 10000)%Z -> (get_green 9000 <= get_green 2000)%Z).
Proof. split; [lia | apply (channels_are_monotone 2000 9000); lia]. Defined.

(** ** The ramps of [set_gamma] and the read-back of [get_gamma] *)

Lemma ramp_length size ratio :
  List.length (ramp size ratio) = Z.to_nat size.
Proof. unfold ramp. now rewrite length_map, length_seq. Qed.

Lemma ramp_nth size ratio j :
  (j < Z.to_nat size)%nat ->
  nth j (ramp size ratio) 0%Z
  = to_ushort (65535 * IZR (Z.of_nat j) / IZR size * ratio).
Proof.
  intro Hj. unfold ramp.
  rewrite (nth_indep _ 0%Z
             (to_ushort (65535 * IZR (Z.of_nat 0) / IZR size * ratio)))
    by now rewrite length_map, length_seq.
  rewrite (map_nth (fun j => to_ushort (65535 * IZR (Z.of_nat j) / IZR size * ratio))).
  now rewrite seq_nth.
Qed.

Lemma to_ushort_small x :
  0 <= x < 65536 -> to_ushort x = trunc x /\ (0 <= trunc x <= 65535)%Z.
Proof.
  intros [H0 H1].
  assert (Hlo : (0 <= trunc x)%Z) by (apply trunc_nonneg; lra).
  assert (Hhi : (trunc x <= 65535)%Z).
  { unfold trunc. destruct (Rle_dec 0 x); [| lra].
    destruct (base_Int_part x) as [Hb _].
    apply Z.lt_succ_r, lt_IZR. rewrite succ_IZR. simpl. lra. }
  split; [| lia]. unfold to_ushort. apply Z.mod_small. lia.
Qed.

(** The value stored at entry [j]: [257 j channel / size]. *)
Lemma ramp_value size channel j :
  (0 < size)%Z -> (0 <= channel <= 255)%Z -> (0 <= j < size)%Z ->
  0 <= 65535 * IZR j / IZR size * (IZR channel / 255) < 257 * IZR channel + 1 /\
  65535 * IZR j / IZR size * (IZR channel / 255) < 65536.
Proof.
  intros Hs [Hc0 Hc1] [Hj0 Hj1].
  apply IZR_lt in Hs. apply IZR_le in Hc0, Hc1, Hj0. apply IZR_lt in Hj1.
  assert (Hq : 0 <= IZR j / IZR size < 1).
  { split.
    - apply Rmult_le_pos; [assumption | left; now apply Rinv_0_lt_compat].
    - apply Rmult_lt_reg_r with (IZR size); [assumption |].
      unfold Rdiv. rewrite Rmult_assoc, Rinv_l, Rmult_1_r by lra. lra. }
  replace (65535 * IZR j / IZR size * (IZR channel / 255))
    with (257 * IZR channel * (IZR j / IZR size)) by (field; lra).
  split; [split |]; nra.
Qed.

Lemma clamp_channel channel :
  (0 <= channel <= 255)%Z -> clamp (IZR channel) 255 = channel.
Proof.
  intros [H0 H1]. apply IZR_le in H0 as H0'. apply IZR_le in H1 as H1'.
  rewrite clamp_255_eq by lra. rewrite Rmin_left by assumption.
  now apply trunc_IZR.
Qed.

(** On a ramp of 256 entries, entry 1 is the channel itself. *)
Lemma ramp_256_entry_1 channel :
  (0 <= channel <= 255)%Z -> nth 1 (ramp 256 (IZR channel / 255)) 0%Z = channel.
Proof.
  intros [H0 H1]. rewrite ramp_nth by (vm_compute; lia).
  apply IZR_le in H0 as H0'. apply IZR_le in H1 as H1'.
  assert (Hx : IZR channel <= 65535 * IZR (Z.of_nat 1) / 256 * (IZR channel / 255)
               < IZR channel + 1) by (simpl; lra).
  destruct (to_ushort_small (65535 * IZR (Z.of_nat 1) / 256 * (IZR channel / 255)))
    as [-> _]; [lra |].
  now apply trunc_between.
Qed.

(** On a ramp of 323 entries or more, entry 1 is below 203. *)
Lemma ramp_large_entry_1 size channel :
  (323 <= size)%Z -> (0 <= channel <= 255)%Z ->
  (0 <= nth 1 (ramp size (IZR channel / 255)) 0%Z <= 202)%Z.
Proof.
  intros Hs [H0 H1]. rewrite ramp_nth by lia.
  apply IZR_le in H0 as H0'. apply IZR_le in H1 as H1'. apply IZR_le in Hs as Hs'.
  set (x := 65535 * IZR (Z.of_nat 1) / IZR size * (IZR channel / 255)).
  assert (Hx : 0 <= x < 203).
  { unfold x. simpl.
    replace (65535 * 1 / IZR size * (IZR channel / 255))
      with (257 * IZR channel / IZR size) by (field; lra).
    split.
    - apply Rmult_le_pos; [lra | left; apply Rinv_0_lt_compat; lra].
    - apply Rmult_lt_reg_r with (IZR size); [lra |].
      unfold Rdiv. rewrite Rmult_assoc, Rinv_l, Rmult_1_r by lra. lra. }
  destruct (to_ushort_small x) as [-> [Hlo _]]; [lra |].
  split; [assumption |].
  replace 202%Z with (trunc 202) by (apply (trunc_IZR 202); lia).
  destruct (Rle_lt_dec x 202) as [Hle | Hgt]; [apply trunc_le; lra |].
  rewrite (trunc_between x 202); [rewrite (trunc_IZR 202); lia | lia | lra].
Qed.

(** The ramp [set_gamma] installs for a channel in [0, 255] has as many
    entries as the CRTC asks for, starts at 0, never decreases and fits 16
    bits. *)
Theorem ramp_is_nondecreasing (size channel : Z) (i j : nat) :
  (0 <= channel <= 255)%Z -> (i <= j)%nat -> (j < Z.to_nat size)%nat ->
  List.length (ramp size (IZR channel / 255)) = Z.to_nat size /\
  nth 0 (ramp size (IZR channel / 255)) 0%Z = 0%Z /\
  (0 <= nth i (ramp size (IZR channel / 255)) 0
     <= nth j (ramp size (IZR channel / 255)) 0)%Z /\
  (nth j (ramp size (IZR channel / 255)) 0 <= 65535)%Z.
Proof.
  intros Hc Hij Hj. assert (Hs : (0 < size)%Z) by lia.
  split; [apply ramp_length |].
  rewrite !ramp_nth by lia.
  destruct (ramp_value size channel (Z.of_nat 0) Hs Hc ltac:(lia)) as [[Ha0 _] Hb0].
  destruct (ramp_value size channel (Z.of_nat i) Hs Hc ltac:(lia)) as [[Hai _] Hbi].
  destruct (ramp_value size channel (Z.of_nat j) Hs Hc ltac:(lia)) as [[Haj _] Hbj].
  destruct (to_ushort_small _ (conj Ha0 Hb0)) as [-> _].
  destruct (to_ushort_small _ (conj Hai Hbi)) as [-> [Hi0 _]].
  destruct (to_ushort_small _ (conj Haj Hbj)) as [-> [_ Hj1]].
  split; [| split; [split; [assumption |] | assumption]].
  - replace (65535 * IZR (Z.of_nat 0) / IZR size * (IZR channel / 255)) with (IZR 0).
    + apply (trunc_IZR 0). lia.
    + simpl. unfold Rdiv. ring.
  - apply trunc_le; [lra |].
    destruct Hc as [Hc0 Hc1]. apply IZR_le in Hc0, Hc1. apply IZR_lt in Hs.
    assert (Hle : IZR (Z.of_nat i) <= IZR (Z.of_nat j)) by (apply IZR_le; lia).
    assert (Hinv : 0 < / IZR size) by now apply Rinv_0_lt_compat.
    unfold Rdiv. 
    assert (Hr : 0 <= IZR channel * / 255) by lra.
    assert (Hm : 65535 * IZR (Z.of_nat i) * / IZR size
                 <= 65535 * IZR (Z.of_nat j) * / IZR size).
    { apply Rmult_le_compat_r; [lra | lra]. }
    now apply Rmult_le_compat_r.
Qed.

Lemma ramp_is_nondecreasing_witness :
  ((0 <= 200 <= 255)%Z /\ (3 <= 200)%nat /\ (200 < Z.to_nat 256)%nat) /\
  (0 <= nth 3 (ramp 256 (IZR 200 / 255)) 0
     <= nth 200 (ramp 256 (IZR 200 / 255)) 0)%Z.
Proof.
  assert (H : (200 < Z.to_nat 256)%nat) by (vm_compute; lia).
  split; [split; [lia | split; [lia | exact H]] |].
  apply (ramp_is_nondecreasing 256 200 3 200); [lia | lia | exact H].
Defined.

(** The bisection on the channels of a temperature: 15 iterations suffice. *)
Lemma get_temp_converges (t : Z) :
  (1000 <= t <= 10000)%Z ->
  exists t',
    (forall fuel, (15 <= fuel)%nat ->
       get_temp fuel (get_red t) (get_blue t) = Some t') /\
    get_red t' = get_red t /\ get_blue t' = get_blue t /\
    (1000 <= t' <= 10000)%Z.
Proof.
  intro Ht.
  assert (Hfinish : forall lo hi t0,
    (forall n, (15 <= n)%nat ->
       bisect n lo hi (get_red t) (get_blue t) = Some t0) ->
    min_temp_init (get_blue t) = lo -> max_temp_init (get_red t) = hi ->
    get_red t0 = get_red t -> get_blue t0 = get_blue t ->
    (1000 <= t0 <= 10000)%Z ->
    exists t',
      (forall fuel, (15 <= fuel)%nat ->
         get_temp fuel (get_red t) (get_blue t) = Some t') /\
      get_red t' = get_red t /\ get_blue t' = get_blue t /\
      (1000 <= t' <= 10000)%Z).
  { intros lo hi t0 Hrun Hlo Hhi HR HB Hrange.
    exists (fit50 t0 (get_red t) (get_blue t)).
    destruct (fit50_hit t0 _ _ HR HB) as [HR' HB'].
    repeat split; try assumption; try (apply fit50_range; assumption).
    intros fuel Hfuel. unfold get_temp. rewrite Hlo, Hhi, (Hrun fuel Hfuel).
    reflexivity. }
  destruct (Z.eq_dec (get_blue t) 255) as [HB | HB];
    destruct (Z.eq_dec (get_red t) 255) as [HR | HR].
  - (* both channels saturated *)
    apply (Hfinish 6500%Z 6500%Z 6500%Z).
    + intros [| n] Hn; [lia |]. rewrite HR, HB. apply bisect_saturated.
    + now rewrite HB.
    + now rewrite HR.
    + now rewrite HR.
    + now rewrite HB.
    + lia.
  - (* blue saturated, red below 255: the search runs in [6500, 10000] *)
    assert (Hhigh : (6500 < t)%Z).
    { destruct (Z_le_gt_dec t 6500) as [H | H]; [| lia].
      now rewrite get_red_low in HR. }
    assert (Hs : exists s, (6500 <= s < 10000)%Z /\ get_red s = get_red t).
    { destruct (Z.eq_dec t 10000) as [-> | Hne].
      - exists 9999%Z. split; [lia |]. now rewrite get_red_9999, get_red_10000.
      - exists t. split; [lia | reflexivity]. }
    destruct Hs as (s & Hsr & HsR).
    destruct (bisect_converges (get_red t) (get_blue t) s 6500 10000 ltac:(lia))
      with (k := 14%nat) (min_temp := 6500%Z) (max_temp := 10000%Z)
      as (t0 & Hrun & HR0 & HB0 & Hrange); try lia.
    { intros temp Htemp. rewrite HB. apply direction_red; [assumption | lia | assumption]. }
    apply (Hfinish 6500%Z 10000%Z t0); try assumption; try lia.
    + now rewrite HB.
    + unfold max_temp_init. apply Z.eqb_neq in HR. now rewrite HR.
  - (* red saturated, blue below 255: the search runs in [1000, 6500] *)
    assert (Hlow : (t < 6500)%Z).
    { destruct (Z_lt_le_dec t 6500) as [H | H]; [assumption |].
      now rewrite get_blue_high in HB. }
    destruct (bisect_converges (get_red t) (get_blue t) t 1000 6500 ltac:(lia))
      with (k := 14%nat) (min_temp := 1000%Z) (max_temp := 6500%Z)
      as (t0 & Hrun & HR0 & HB0 & Hrange); try lia.
    { intros temp Htemp. rewrite HR. apply direction_blue; [assumption | reflexivity | assumption]. }
    apply (Hfinish 1000%Z 6500%Z t0); try assumption; try lia.
    + unfold min_temp_init. apply Z.eqb_neq in HB. now rewrite HB.
    + now rewrite HR.
  - (* impossible: one of the two channels is always saturated *)
    exfalso. destruct (Z_le_gt_dec t 6500) as [H | H].
    + now rewrite get_red_low in HR.
    + rewrite get_blue_high in HB by lia. now apply HB.
Qed.

Lemma channel_ranges t :
  (t <= 10000)%Z -> (0 <= get_red t <= 255)%Z /\ (0 <= get_blue t <= 255)%Z.
Proof.
  intro Ht. pose proof (get_red_range t Ht). pose proof (get_blue_range t). lia.
Qed.

(** Round trip through a display whose first CRTC has a ramp of 256 entries:
    after [set_gamma] with a temperature t of [1000, 10000], [get_gamma]
    returns (15 iterations of the search suffice) a temperature of
    [1000, 10000] with the red and the blue of t, and leaves the error as it
    was. *)
Theorem get_gamma_reads_back_set_gamma (t err0 err : Z) (c : crtc)
  (rest : list crtc) :
  (1000 <= t <= 10000)%Z -> gamma_size c = 256%Z ->
  exists t',
    (forall fuel, (15 <= fuel)%nat ->
       get_gamma fuel err (snd (set_gamma t err0 (Some (c :: rest))))
       = Some (t', err)) /\
    get_red t' = get_red t /\ get_blue t' = get_blue t /\
    (1000 <= t' <= 10000)%Z.
Proof.
  intros Ht Hsize.
  destruct (get_temp_converges t Ht) as (t' & Hrun & HR & HB & Hrange).
  destruct (channel_ranges t ltac:(lia)) as [Hred Hblue].
  exists t'. repeat split; try assumption; try lia.
  intros fuel Hfuel. cbn [set_gamma snd map get_gamma ramp_red ramp_blue].
  rewrite Hsize, !ramp_256_entry_1, !clamp_channel by assumption.
  rewrite (Hrun fuel Hfuel).
  assert (Hpos : (t' <=? 0)%Z = false) by (apply Z.leb_gt; lia).
  now rewrite Hpos.
Qed.

Lemma get_gamma_reads_back_set_gamma_witness :
  ((1000 <= 1000 <= 10000)%Z /\ gamma_size (mkCrtc 256 [] [] []) = 256%Z) /\
  exists t',
    (forall fuel, (15 <= fuel)%nat ->
       get_gamma fuel 0 (snd (set_gamma 1000 0 (Some [mkCrtc 256 [] [] []])))
       = Some (t', 0%Z)) /\
    get_red t' = get_red 1000 /\ get_blue t' = get_blue 1000 /\
    (1000 <= t' <= 10000)%Z.
Proof.
  split; [split; [lia | reflexivity] |].
  apply (get_gamma_reads_back_set_gamma 1000 0 0 (mkCrtc 256 [] [] []) []);
    [lia | reflexivity].
Defined.

(** On a display whose first CRTC has a ramp of 323 entries or more (1024,
    say), entry 1 of the red ramp [set_gamma] installs is below 203, a red no
    temperature has: [get_gamma] then never returns. *)
Theorem get_gamma_hangs_on_large_ramps (t err0 err : Z) (c : crtc)
  (rest : list crtc) :
  (t <= 10000)%Z -> (323 <= gamma_size c)%Z ->
  forall fuel,
    get_gamma fuel err (snd (set_gamma t err0 (Some (c :: rest)))) = None.
Proof.
  intros Ht Hsize fuel.
  destruct (channel_ranges t Ht) as [Hred Hblue].
  cbn [set_gamma snd map get_gamma ramp_red ramp_blue].
  pose proof (ramp_large_entry_1 (gamma_size c) (get_red t) Hsize Hred) as HR.
  set (R' := nth 1 (ramp (gamma_size c) (IZR (get_red t) / 255)) 0%Z) in *.
  rewrite (clamp_channel R') by lia.
  rewrite get_temp_unreachable; [reflexivity |].
  intros t' Ht' [Hr _]. pose proof (get_red_range t' ltac:(lia)). lia.
Qed.

Lemma get_gamma_hangs_on_large_ramps_witness :
  ((6500 <= 10000)%Z /\ (323 <= gamma_size (mkCrtc 1024 [] [] []))%Z) /\
  (forall fuel,
     get_gamma fuel 0 (snd (set_gamma 6500 0 (Some [mkCrtc 1024 [] [] []]))) = None).
Proof.
  split; [split; [lia | simpl; lia] |].
  apply (get_gamma_hangs_on_large_ramps 6500 0 0 (mkCrtc 1024 [] [] []) []);
    [lia | simpl; lia].
Defined.

(** What [get_gamma] hands back when it returns: either -1 together with an
    error (ENXIO without a display, 1 without a CRTC), or a temperature of
    [1000, 10000] with the error left as it was; the test [temp <= 0] after
    the search never fires. *)
Theorem get_gamma_result (fuel : nat) (err : Z) (dpy : option (list crtc))
  (temp err' : Z) :
  readable dpy ->
  get_gamma fuel err dpy = Some (temp, err') ->
  (temp = (-1)%Z /\ (dpy = None /\ err' = ENXIO \/ dpy = Some [] /\ err' = 1%Z)) \/
  ((1000 <= temp <= 10000)%Z /\ err' = err /\ exists c rest, dpy = Some (c :: rest)).
Proof.
  intros _ Hrun. destruct dpy as [[| c rest] |]; cbn [get_gamma] in Hrun.
  - injection Hrun as <- <-. left. split; [reflexivity | right; now split].
  - destruct (get_temp fuel _ _) as [t |] eqn:Ht; [| discriminate].
    injection Hrun as <- <-.
    destruct (get_temp_sound _ _ _ _ Ht) as (_ & _ & Hrange).
    right. split; [assumption |]. split.
    + assert (Hpos : (t <=? 0)%Z = false) by (apply Z.leb_gt; lia). now rewrite Hpos.
    + now exists c, rest.
  - injection Hrun as <- <-. left. split; [reflexivity | left; now split].
Qed.

Lemma get_gamma_result_witness :
  (readable (Some [mkCrtc 2 [0; 255] [0; 255] [0; 255]]%Z) /\
   get_gamma 1 0 (Some [mkCrtc 2 [0; 255] [0; 255] [0; 255]]%Z)
   = Some (6500%Z, 0%Z)) /\
  ((6500%Z = (-1)%Z /\
    (Some [mkCrtc 2 [0; 255] [0; 255] [0; 255]]%Z = None /\ 0%Z = ENXIO \/
     Some [mkCrtc 2 [0; 255] [0; 255] [0; 255]]%Z = Some [] /\ 0%Z = 1%Z)) \/
   ((1000 <= 6500 <= 10000)%Z /\ 0%Z = 0%Z /\
    exists c rest, Some [mkCrtc 2 [0; 255] [0; 255] [0; 255]]%Z = Some (c :: rest))).
Proof.
  assert (Hread : readable (Some [mkCrtc 2 [0; 255] [0; 255] [0; 255]]%Z)).
  { split; simpl; lia. }
  assert (Hrun : get_gamma 1 0 (Some [mkCrtc 2 [0; 255] [0; 255] [0; 255]]%Z)
                 = Some (6500%Z, 0%Z)).
  { cbn [get_gamma ramp_red ramp_blue nth]. rewrite !clamp_channel by lia.
    reflexivity. }
  split; [split; [exact Hread | exact Hrun] |].
  exact (get_gamma_result 1 0 (Some [mkCrtc 2 [0; 255] [0; 255] [0; 255]]%Z)
           6500 0 Hread Hrun).
Defined.

End GammaFacts.
